(** * precondition.py: the json-ld pre/postconditioning wrapper

    A shallow embedding of [src/precondition.py] and the properties its
    specification states about it.

    Conventions of the embedding.
    - A Python [str] is a list of characters; characters are the code
      points 0..255, so every text of the development is a Latin-1 text.
    - Code that can raise returns a [result]: [Return v] or [Raise e].
    - The regular expressions of the source are values of [regex], run by
      a backtracking matcher that yields the candidates in the order
      Python's [re] tries them.
    - The graph handed to [postcondition] is the list of its triples in
      iteration order; the graph it builds is a finite set of triples,
      the [@context] and the line-number table are finite maps.
    - A literal that [postcondition] builds goes through the constructor
      of [rdflib], which may rewrite its text.  That rewriting is the
      library's: the embedding takes it as a [Normalization], and the
      properties of [postcondition] hold for every one.

    The first part is the program, function by function; the second one
    the vocabulary of the properties; the third one the properties, with
    the claims of the specification marked C1 to C10. *)

From Stdlib Require Import ZArith Lia Ascii.
From stdpp Require Import gmap strings list.

Local Open Scope Z_scope.
Local Open Scope nat_scope.

(** ** Python strings *)

Abbreviation str := (list ascii).

(** A literal of the source. *)
Definition lit (s : string) : str := String.list_ascii_of_string s.

(** The double-quote character and the newline. *)
Definition dq : ascii := "034"%char.
Definition nl : ascii := "010"%char.

(** [py s] is [s] with every apostrophe read as a double quote: the
    json-ld samples below are written with it. *)
Definition py (s : string) : str :=
  map (fun c => if Ascii.eqb c "'"%char then dq else c) (lit s).

Definition code (c : ascii) : nat := nat_of_ascii c.

Definition between (lo hi : nat) (c : ascii) : bool :=
  (lo <=? code c) && (code c <=? hi).

(** [sep] is a prefix of [s]: what is left of [s] after it. *)
Fixpoint strip_prefix (sep s : str) : option str :=
  match sep, s with
  | [], _ => Some s
  | a :: sep', b :: s' => if Ascii.eqb a b then strip_prefix sep' s' else None
  | _ :: _, [] => None
  end.

(** [sub in s], for a non-empty [sub]. *)
Definition occurs (sub s : str) : Prop := exists a b, s = a ++ sub ++ b.

(** [sub in s] as Python decides it. *)
Fixpoint contains (sub s : str) : bool :=
  match strip_prefix sub s with
  | Some _ => true
  | None =>
      match s with
      | [] => false
      | _ :: s' => contains sub s'
      end
  end.

(** *** [s.split(sep)] scanning from the left

    [split_from sep skip cur s]: [cur] is the part being collected
    (reversed), [skip] the number of characters of [s] that still belong
    to the separator found last. *)
Fixpoint split_from (sep : str) (skip : nat) (cur : str) (s : str) : list str :=
  match s with
  | [] => [rev cur]
  | c :: s' =>
      match skip with
      | S k => split_from sep k cur s'
      | O =>
          match strip_prefix sep s with
          | Some _ => rev cur :: split_from sep (length sep - 1) [] s'
          | None => split_from sep 0 (c :: cur) s'
          end
      end
  end.

Definition split (sep s : str) : list str := split_from sep 0 [] s.

(** [s.rsplit(sep)]: CPython searches the separator from the right end
    ([rfind]), cuts there and goes on with what is to the left of it;
    the parts are returned in text order. That is the left scan of the
    reversed text for the reversed separator. *)
Definition rsplit (sep s : str) : list str :=
  rev (map (@rev ascii) (split (rev sep) (rev s))).

(** [s.split(c, 1)] for a one-character separator: at most one cut, at
    the first [c]. *)
Fixpoint split_once (c : ascii) (s : str) : list str :=
  match s with
  | [] => [[]]
  | x :: s' =>
      if Ascii.eqb x c then [[]; s']
      else match split_once c s' with
           | p :: ps => (x :: p) :: ps
           | [] => [[x]]
           end
  end.

(** [s.split(c)] for a one-character separator. *)
Fixpoint split_char (c : ascii) (s : str) : list str :=
  match s with
  | [] => [[]]
  | x :: s' =>
      if Ascii.eqb x c then [] :: split_char c s'
      else match split_char c s' with
           | p :: ps => (x :: p) :: ps
           | [] => [[x]]
           end
  end.

(** [c.join(parts)]. *)
Fixpoint join (c : ascii) (parts : list str) : str :=
  match parts with
  | [] => []
  | [p] => p
  | p :: ps => p ++ c :: join c ps
  end.

(** ** Exceptions *)

Inductive exn :=
| ValueError
| IndexError
| Exception (msg : string).

Inductive result (A : Type) :=
| Return (a : A)
| Raise (e : exn).
Arguments Return {A} a.
Arguments Raise {A} e.

Definition bind {A B} (m : result A) (f : A -> result B) : result B :=
  match m with
  | Return a => f a
  | Raise e => Raise e
  end.

Notation "'let*' x ':=' m 'in' k" := (bind m (fun x => k))
  (at level 10, x pattern, m at level 100, k at level 200).

(** ** [str(n)] and [int(s)] *)

Definition digit_char (d : N) : ascii := ascii_of_N (48 + d).

(** The decimal digits of [n], most significant first, in front of [acc]. *)
Fixpoint digits_of (fuel : nat) (n : N) (acc : str) : str :=
  match fuel with
  | O => acc
  | S f =>
      let acc' := digit_char (n mod 10) :: acc in
      if (n <? 10)%N then acc' else digits_of f (n / 10) acc'
  end.

Definition str_N (n : N) : str := digits_of (S (N.to_nat (N.log2 n))) n [].

(** [str(n)] for an [int]. *)
Definition str_int (n : Z) : str :=
  match n with
  | Zneg p => "-"%char :: str_N (Npos p)
  | _ => str_N (Z.to_N n)
  end.

Definition digit_value (c : ascii) : option N :=
  if between 48 57 c then Some (N_of_ascii c - 48)%N else None.

(** The white space [int] strips from both ends. *)
Definition int_space (c : ascii) : bool :=
  between 9 13 c || (code c =? 32) || (code c =? 133) || (code c =? 160).

(** Digits, with single underscores allowed between two digits. *)
Fixpoint int_digits (acc : N) (s : str) : option N :=
  match s with
  | [] => None
  | c :: s' =>
      match digit_value c with
      | None => None
      | Some d =>
          let acc' := (acc * 10 + d)%N in
          match s' with
          | [] => Some acc'
          | u :: s'' =>
              if Ascii.eqb u "_"%char then int_digits acc' s''
              else int_digits acc' s'
          end
      end
  end.

Fixpoint lstrip (p : ascii -> bool) (s : str) : str :=
  match s with
  | c :: s' => if p c then lstrip p s' else s
  | [] => []
  end.

Definition strip (p : ascii -> bool) (s : str) : str :=
  rev (lstrip p (rev (lstrip p s))).

(** [int(s)] in base 10; [ValueError] on anything else. *)
Definition int (s : str) : result Z :=
  let body sign t :=
    match int_digits 0 t with
    | Some n => Return (sign * Z.of_N n)%Z
    | None => Raise ValueError
    end in
  match strip int_space s with
  | c :: t =>
      if Ascii.eqb c "-"%char then body (-1)%Z t
      else if Ascii.eqb c "+"%char then body 1%Z t
      else body 1%Z (c :: t)
  | [] => Raise ValueError
  end.

(** ** The line-number codec *)

Definition LINE : str := lit "_LINE_".

(** The encoding of the specification,
    [value + '_LINE_' + str(line_number)]: what [embed_line_numbers]
    puts in place of a type value. *)
Definition encode (value : str) (line_number : Z) : str :=
  value ++ LINE ++ str_int line_number.

Definition extract_line_number (text : str) : result (str * option Z) :=
  let parts := rsplit LINE text in
  if length parts =? 1 then Return (text, None)
  else
    match parts with
    | p0 :: p1 :: _ => let* number := int p1 in Return (p0, Some number)
    | _ => Raise IndexError
    end.

(** ** Regular expressions

    The fragment of [re] the source uses. Repetition is only ever
    applied to a one-character item (a class or a character), given
    here by its predicate. *)

Inductive regex :=
| Eps
| Lit (l : str)                      (* literal text *)
| Star (p : ascii -> bool)           (* x*, greedy *)
| Plus (p : ascii -> bool)           (* x+, greedy *)
| Rep (n : nat) (p : ascii -> bool)  (* x{n} *)
| Seq (r1 r2 : regex)
| Alt (r1 r2 : regex)                (* r1|r2 *)
| Grp (r : regex).                   (* (r), capturing *)

Infix "+>" := Seq (at level 55, right associativity).

(** The inputs left after [x*], the longest run first. *)
Fixpoint star_runs (p : ascii -> bool) (s : str) : list str :=
  match s with
  | c :: s' => if p c then star_runs p s' ++ [s] else [s]
  | [] => [[]]
  end.

Fixpoint rep_run (n : nat) (p : ascii -> bool) (s : str) : list str :=
  match n, s with
  | O, _ => [s]
  | S n', c :: s' => if p c then rep_run n' p s' else []
  | S _, [] => []
  end.

(** The text matched between the input [s] and what is left, [s']. *)
Definition consumed (s s' : str) : str := take (length s - length s') s.

(** [run r s]: every way [r] matches a prefix of [s], as the captured
    groups (in group order) and the input left, in the order the
    backtracking matcher of [re] tries them. *)
Fixpoint run (r : regex) (s : str) : list (list str * str) :=
  match r with
  | Eps => [([], s)]
  | Lit l => match strip_prefix l s with Some s' => [([], s')] | None => [] end
  | Star p => map (pair []) (star_runs p s)
  | Plus p =>
      match s with
      | c :: s' => if p c then map (pair []) (star_runs p s') else []
      | [] => []
      end
  | Rep n p => map (pair []) (rep_run n p s)
  | Seq r1 r2 =>
      flat_map (fun o1 => map (fun o2 => (o1.1 ++ o2.1, o2.2)) (run r2 o1.2))
               (run r1 s)
  | Alt r1 r2 => run r1 s ++ run r2 s
  | Grp r => map (fun o => (consumed s o.2 :: o.1, o.2)) (run r s)
  end.

(** [pattern.match(s)]: the first candidate, anchored at the start. *)
Definition re_match (r : regex) (s : str) : option (list str * str) :=
  head (run r s).

(** [m.group(k)], [k >= 1]. *)
Definition group (k : nat) (groups : list str) : str := nth (k - 1) groups [].

(** The left-to-right scan behind [re.findall] and [re.subn]: at a
    position where the pattern matches, the match is reported and the
    scan resumes after it; elsewhere the character is passed over.
    [skip] counts the characters still inside the match reported last.
    The scanned patterns of this program never match the empty text. *)
Inductive piece :=
| Gap (c : ascii)
| Hit (groups : list str).

Fixpoint scan (r : regex) (skip : nat) (s : str) : list piece :=
  match s with
  | [] => []
  | c :: s' =>
      match skip with
      | S k => scan r k s'
      | O =>
          match re_match r s with
          | Some (groups, rest) =>
              Hit groups :: scan r (length s - length rest - 1) s'
          | None => Gap c :: scan r 0 s'
          end
      end
  end.

Definition hits (ps : list piece) : list (list str) :=
  omap (fun pc => match pc with Hit g => Some g | Gap _ => None end) ps.

(** [re.findall(pattern, s)] for a pattern with one group. *)
Definition findall (r : regex) (s : str) : list str :=
  map (group 1) (hits (scan r 0 s)).

(** [re.subn(pattern, repl, s)] for a function [repl] of the groups. *)
Definition subn (r : regex) (repl : list str -> str) (s : str) : str * nat :=
  let ps := scan r 0 s in
  (concat (map (fun pc => match pc with Hit g => repl g | Gap c => [c] end) ps),
   length (hits ps)).

(** *** Character classes *)

(** [\w] on a [str] pattern, for the code points below 256. *)
Definition is_word (c : ascii) : bool :=
  between 48 57 c || between 65 90 c || between 97 122 c || (code c =? 95)
  || (code c =? 170) || (code c =? 178) || (code c =? 179) || (code c =? 181)
  || (code c =? 185) || (code c =? 186) || between 188 190 c
  || between 192 214 c || between 216 246 c || between 248 255 c.

(** [\s], for the code points below 256. *)
Definition is_space (c : ascii) : bool :=
  between 9 13 c || between 28 32 c || (code c =? 133) || (code c =? 160).

Definition is_blank (c : ascii) : bool := Ascii.eqb c " "%char.

Definition one_of (l : str) (c : ascii) : bool := existsb (Ascii.eqb c) l.

(** The class [[\w:#/-]] of the type values. *)
Definition type_char (c : ascii) : bool := is_word c || one_of (lit ":#/-") c.

(** The class [[\w-]] of the empty-prefixed tokens. *)
Definition token_char (c : ascii) : bool := is_word c || Ascii.eqb c "-"%char.

(** ** [PrefixGenerator] *)

Record PrefixGenerator := {
  prefix_length : nat;
  alphabet : str;
  alphabet_length : nat;
  max_count : nat
}.

Definition PrefixGenerator_init (prefix_length : nat) (alphabet : str)
  : PrefixGenerator :=
  {| prefix_length := prefix_length;
     alphabet := alphabet;
     alphabet_length := length alphabet;
     max_count := length alphabet ^ prefix_length |}.

(** The [while count:] loop. [position] only ever decreases, and the
    loop is modelled as long as it stays inside [digits] and divides by
    a non-zero length ([None] otherwise; [digits_loop_total] shows that
    no [count] below [max_count] gets there). *)
Fixpoint digits_loop (alphabet_length position count : nat) (digits : list nat)
  : option (list nat) :=
  if count =? 0 then Some digits
  else
    match position with
    | O => None
    | S position' =>
        if alphabet_length =? 0 then None
        else digits_loop alphabet_length position' (count / alphabet_length)
               (<[position' := count mod alphabet_length]> digits)
    end.

(** What [__iter__] yields for [count]. *)
Definition yield (self : PrefixGenerator) (count : nat) : option str :=
  match digits_loop (alphabet_length self) (prefix_length self) count
          (replicate (prefix_length self) 0) with
  | Some digits => mapM (fun c => alphabet self !! c) digits
  | None => None
  end.

(** [list(self)]. *)
Definition iter (self : PrefixGenerator) : list (option str) :=
  map (yield self) (seq 0 (max_count self)).

(** ** [autogenerate_empty_prefix] *)

(** [(\w{prefix_length}):] *)
Definition match_string (prefix_length : nat) : regex :=
  Grp (Rep prefix_length is_word) +> Lit (lit ":").

(** The [for prefix in PrefixGenerator(...)] loop, from [count] on with
    [todo] candidates to go. *)
Fixpoint for_prefix (self : PrefixGenerator) (non_candidate : gset str)
    (count todo : nat) : result str :=
  match todo with
  | O => Raise (Exception "This cannot happen")
  | S todo' =>
      match yield self count with
      | None => Raise IndexError
      | Some prefix =>
          if decide (elem_of prefix non_candidate)
          then for_prefix self non_candidate (S count) todo'
          else Return prefix
      end
  end.

Definition autogenerate_empty_prefix (text : str) (prefix_length : nat)
    (alphabet : str) : result str :=
  let non_candidate_prefix_strings : gset str :=
    list_to_set (findall (match_string prefix_length) text) in
  if size non_candidate_prefix_strings =? length alphabet
  then Raise (Exception "Could not find unused prefix sequence!")
  else
    let self := PrefixGenerator_init prefix_length alphabet in
    for_prefix self non_candidate_prefix_strings 0 (max_count self).

(** ** [replace_empty_prefix] *)

(** The pattern [py "'':(\s*'(?:http|https|file)://)"]. *)
Definition empty_context_pattern : regex :=
  Lit (py "'':")
  +> Grp (Star is_space +> Lit [dq]
          +> Alt (Lit (lit "http")) (Alt (Lit (lit "https")) (Lit (lit "file")))
          +> Lit (lit "://")).

(** The pattern [py "':([\w-]+)'"]. *)
Definition empty_token_pattern : regex :=
  Lit (py "':")
  +> Grp (Plus token_char)
  +> Lit [dq].

Definition replace_empty_prefix (text empty_prefix : str) : result str :=
  let '(text, count) :=
    subn empty_context_pattern
         (fun m => dq :: empty_prefix ++ py "':" ++ group 1 m) text in
  if count =? 0 then Return text
  else if 1 <? count
  then Raise (Exception "Found multiple tokens that look like empty-string contexts")
  else
    let '(text, count) :=
      subn empty_token_pattern
           (fun m => dq :: empty_prefix ++ lit ":" ++ group 1 m ++ [dq]) text in
    Return text.

(** ** [embed_line_numbers] *)

(** The pattern [py "( *'@type': *')([\w:#/-]+)(',)"]. *)
Definition type_matcher : regex :=
  Grp (Star is_blank +> Lit (py "'@type':") +> Star is_blank +> Lit [dq])
  +> Grp (Plus type_char)
  +> Grp (Lit (py "',")).

(** The body of the loop over [enumerate(lines)]: the new content of
    [lines[line_number]]. *)
Definition embed_line (line_number : nat) (line : str) : str :=
  match re_match type_matcher line with
  | Some (matches, _) =>
      group 1 matches ++ group 2 matches ++ LINE
      ++ str_int (Z.of_nat line_number + 1) ++ group 3 matches
  | None => line
  end.

Definition embed_line_numbers (text : str) : str :=
  join nl (imap embed_line (split_char nl text)).

(** ** [precondition] *)

Definition DEFAULT_PREFIX_LENGTH : nat := 3.
Definition DEFAULT_ALPHABET : str := lit "abcdefghijklmnopqrstuvwxyz".

Definition precondition (text : str) (prefix : option str) : result str :=
  let* prefix :=
    match prefix with
    | None => autogenerate_empty_prefix text DEFAULT_PREFIX_LENGTH DEFAULT_ALPHABET
    | Some prefix => Return prefix
    end in
  let* text := replace_empty_prefix text prefix in
  let text := embed_line_numbers text in
  Return text.

(** ** rdflib terms and graphs *)

(** The nodes of [rdflib.term]: a literal carries its lexical form and,
    optionally, a language tag or a datatype; [str(obj)] is the lexical
    form of a literal and the text of a reference, and a literal built
    from a text and a datatype carries exactly these. *)
Inductive term :=
| URIRef (iri : str)
| BNode (id : str)
| Literal (lexical : str) (language : option str) (datatype : option str).

#[global] Instance term_eq_dec : EqDecision term.
Proof. solve_decision. Defined.

Definition term_encode (t : term) : str + str + str * option str * option str :=
  match t with
  | URIRef s => inl (inl s)
  | BNode s => inl (inr s)
  | Literal l g d => inr (l, g, d)
  end.

Definition term_decode (x : str + str + str * option str * option str) : term :=
  match x with
  | inl (inl s) => URIRef s
  | inl (inr s) => BNode s
  | inr (l, g, d) => Literal l g d
  end.

#[global] Instance term_countable : Countable term.
Proof.
  apply (inj_countable' term_encode term_decode).
  intros []; reflexivity.
Defined.

Abbreviation triple := (term * term * term)%type.

(** The truth value of [obj.datatype]: set and not empty. *)
Definition has_datatype (datatype : option str) : bool :=
  match datatype with
  | Some (_ :: _) => true
  | _ => false
  end.

(** The truth value of [number]: an [int] other than 0. *)
Definition truthy (number : option Z) : option Z :=
  match number with
  | Some n => if (n =? 0)%Z then None else Some n
  | None => None
  end.

(** ** [postcondition] *)

(** [rdflib.term.Literal(text, datatype=datatype)] builds a literal
    with that datatype and no language.  Its text is [text] as the
    library normalises it: when the datatype is in the library's table
    of conversions and the conversion takes the text, the text becomes
    the one the converted value is written with ([str(int(text))] for
    an integer); otherwise it is kept.  The table belongs to the
    library: [normalize datatype text] stands for it, and the program is
    modelled over every such function. *)
Class Normalization := normalize : str -> str -> str.

(** The first [if] of the loop body: a literal with a datatype. *)
Definition strip_datatype {N : Normalization}
    (subject obj : term) (line_numbers : gmap term Z)
  : result (term * gmap term Z) :=
  match obj with
  | Literal lexical _ (Some datatype) =>
      if has_datatype (Some datatype) then
        let* (stripped_string, number) := extract_line_number datatype in
        match truthy number with
        | Some number =>
            Return (Literal (normalize stripped_string lexical) None
                            (Some stripped_string),
                    <[subject := number]> line_numbers)
        | None => Return (obj, line_numbers)
        end
      else Return (obj, line_numbers)
  | _ => Return (obj, line_numbers)
  end.

(** The second [if]: a literal without datatype whose text looks like
    [prefix:stuff]. *)
Definition expand_prefix (context : gmap str str) (obj : term) : term :=
  match obj with
  | Literal value _ datatype =>
      if has_datatype datatype then obj
      else
        match split_once ":"%char value with
        | part0 :: part1 :: _ =>
            match context !! part0 with
            | Some expansion => URIRef (expansion ++ part1)
            | None => obj
            end
        | _ => obj
        end
  | _ => obj
  end.

(** The third [if]: a reference, maybe the one just created. *)
Definition strip_reference (subject obj : term) (line_numbers : gmap term Z)
  : result (term * gmap term Z) :=
  match obj with
  | URIRef iri =>
      let* (stripped_string, number) := extract_line_number iri in
      match truthy number with
      | Some number =>
          Return (URIRef stripped_string, <[subject := number]> line_numbers)
      | None => Return (obj, line_numbers)
      end
  | _ => Return (obj, line_numbers)
  end.

(** The loop body for one triple: the object added to [new_graph] and
    the table after it. *)
Definition clean_object {N : Normalization}
    (context : gmap str str) (subject obj : term)
    (line_numbers : gmap term Z) : result (term * gmap term Z) :=
  let* (obj, line_numbers) := strip_datatype subject obj line_numbers in
  let obj := expand_prefix context obj in
  strip_reference subject obj line_numbers.

(** The loop over [graph.triples((None, None, None))]. *)
Fixpoint for_triples {N : Normalization}
    (context : gmap str str) (triples : list triple)
    (new_graph : gset triple) (line_numbers : gmap term Z)
  : result (gset triple * gmap term Z) :=
  match triples with
  | [] => Return (new_graph, line_numbers)
  | (subject, predicate, obj) :: triples' =>
      let* (obj, line_numbers) :=
        clean_object context subject obj line_numbers in
      for_triples context triples'
        (union new_graph {[ (subject, predicate, obj) ]}) line_numbers
  end.

Definition postcondition {N : Normalization}
    (graph : list triple) (context : gmap str str)
  : result (gset triple * gmap term Z) :=
  for_triples context graph empty empty.

(** What a result of [postcondition] shows: the triples of the new graph
    and the table entry of a node. *)
Definition triples_of (r : result (gset triple * gmap term Z))
  : result (list triple) :=
  let* (new_graph, _) := r in Return (elements new_graph).

Definition line_number_of (r : result (gset triple * gmap term Z))
    (node : term) : result (option Z) :=
  let* (_, line_numbers) := r in Return (line_numbers !! node).

(** * The vocabulary of the properties *)

(** The decoding as the specification words it: the text is cut at the
    last occurrence of the separator. [last_cut sep s] is what stands
    before and after that occurrence. *)
Fixpoint last_cut (sep s : str) : option (str * str) :=
  match s with
  | [] => None
  | c :: s' =>
      match last_cut sep s' with
      | Some (before, after) => Some (c :: before, after)
      | None =>
          match strip_prefix sep s with
          | Some after => Some ([], after)
          | None => None
          end
      end
  end.

Definition decode (text : str) : result (str * option Z) :=
  match last_cut LINE text with
  | None => Return (text, None)
  | Some (prefix_part, suffix_part) =>
      let* number := int suffix_part in Return (prefix_part, Some number)
  end.

(** A decimal digit. *)
Definition is_digit (c : ascii) : Prop := between 48 57 c = true.

(** The value of a run of digits read after [acc]. *)
Definition value_from (acc : N) (d : str) : N :=
  fold_left (fun a c => (a * 10 + (N_of_ascii c - 48))%N) d acc.

(** [Matches r w g]: the pattern [r] matches exactly the text [w],
    capturing the groups [g]. *)
Fixpoint Matches (r : regex) (w : str) (g : list str) : Prop :=
  match r with
  | Eps => w = [] /\ g = []
  | Lit l => w = l /\ g = []
  | Star p => forallb p w = true /\ g = []
  | Plus p => w <> [] /\ forallb p w = true /\ g = []
  | Rep n p => length w = n /\ forallb p w = true /\ g = []
  | Seq r1 r2 =>
      exists w1 w2 g1 g2,
        w = w1 ++ w2 /\ g = g1 ++ g2 /\ Matches r1 w1 g1 /\ Matches r2 w2 g2
  | Alt r1 r2 => Matches r1 w g \/ Matches r2 w g
  | Grp r => exists g', g = w :: g' /\ Matches r w g'
  end.

(** [matches_at r text i]: the pattern matches at offset [i] of the
    text, an occurrence of the pattern. *)
Definition matches_at (r : regex) (text : str) (i : nat) : bool :=
  match re_match r (drop i text) with
  | Some _ => true
  | None => false
  end.

(** The number of occurrences of the pattern in the text. *)
Definition occurrences (r : regex) (text : str) : nat :=
  length (filter (fun i => matches_at r text i = true) (seq 0 (S (length text)))).

(** The patterns that are scanned match no empty text, and no match of
    theirs starts inside another one: [positive] and [apart]. *)
Definition positive (r : regex) : Prop :=
  forall w g, Matches r w g -> w <> [].

(** [x ++ y] is a match cut in two: no match starts at [y]. *)
Definition apart (r : regex) : Prop :=
  forall x y g rest w2 g2 rest2,
    Matches r (x ++ y) g -> x <> [] -> y <> [] ->
    y ++ rest = w2 ++ rest2 -> ~ Matches r w2 g2.

(** No cut of [t] leaves a text that starts with two double quotes. *)
Definition no_quotes_inside (t : str) : Prop :=
  forall x y rest z, t = x ++ y -> y <> [] -> y ++ rest <> dq :: dq :: z.

(** The two exceptions of the prefix handling. *)
Definition multiple_tokens : exn :=
  Exception "Found multiple tokens that look like empty-string contexts".

Definition could_not_find : exn :=
  Exception "Could not find unused prefix sequence!".

(** [cleaned context subject obj]: the object the loop body adds for a
    triple and the line number it records for the subject, if any. *)
Definition cleaned {N : Normalization}
    (context : gmap str str) (subject obj : term)
  : result (term * option Z) :=
  let* (obj', line_numbers) := clean_object context subject obj empty in
  Return (obj', line_numbers !! subject).

(** Processing the triple records a line number for [node]. *)
Definition writes {N : Normalization}
    (context : gmap str str) (node : term) (t : triple) : bool :=
  match t with
  | (subject, _, obj) =>
      bool_decide (subject = node)
      && match cleaned context subject obj with
         | Return (_, Some _) => true
         | _ => false
         end
  end.

(** The table after a triple of [subject] that records [number]. *)
Definition record (subject : term) (number : option Z)
    (line_numbers : gmap term Z) : gmap term Z :=
  match number with
  | Some n => <[subject := n]> line_numbers
  | None => line_numbers
  end.

(** The sample graphs are run over the table with the one entry they
    use: the text of an [xsd:integer] literal is read by [int] and
    written by [str], and left as it is when [int] refuses it.  No
    other datatype of the samples is in the library's table. *)
Definition xsd_integer : str :=
  lit "http://www.w3.org/2001/XMLSchema#integer".

Definition normalize_integer : Normalization :=
  fun datatype text =>
    if bool_decide (datatype = xsd_integer) then
      match int text with
      | Return value => str_int value
      | Raise _ => text
      end
    else text.

(** The nodes of the sample graphs. *)
Definition node_s : term := URIRef (lit "http://example.org/s").
Definition node_p : term := URIRef (lit "http://example.org/p").
Definition node_q : term := URIRef (lit "http://example.org/q").

(** [sep.join(parts)] for a separator of any length. *)
Fixpoint join_str (sep : str) (parts : list str) : str :=
  match parts with
  | [] => []
  | [p] => p
  | p :: ps => p ++ sep ++ join_str sep ps
  end.

(** The number a list of digits writes in a base, most significant
    digit first. *)
Definition number_of (base : nat) (digits : list nat) : nat :=
  fold_left (fun a d => a * base + d) digits 0.

(** The exception at the end of [autogenerate_empty_prefix]. *)
Definition cannot_happen : exn := Exception "This cannot happen".

(** The text of a reference and the datatype of a literal hold no
    separator. *)
Definition separator_free (obj : term) : bool :=
  match obj with
  | URIRef iri => negb (contains LINE iri)
  | Literal _ _ (Some datatype) => negb (contains LINE datatype)
  | _ => true
  end.

(** * Properties *)

(** ** Sample runs *)

Example rsplit_overlap :
  rsplit LINE (lit "x_LINE_LINE_5") = [lit "x_LINE"; lit "5"].
Proof. reflexivity. Qed.

Example extract_plain :
  extract_line_number (lit "Person_LINE_5") = Return (lit "Person", Some 5%Z).
Proof. reflexivity. Qed.

Example extract_twice :
  extract_line_number (lit "a_LINE_1_LINE_2") = Return (lit "a", Some 1%Z).
Proof. reflexivity. Qed.

Example int_samples :
  int (lit " +1_0 ") = Return 10%Z /\ int (lit "-007") = Return (-7)%Z /\
  int (lit "1__0") = Raise ValueError /\ int (lit "") = Raise ValueError /\
  int (lit "5 5") = Raise ValueError /\ str_int 120 = lit "120" /\
  str_int (-5) = lit "-5" /\ str_int 0 = lit "0".
Proof. repeat split; reflexivity. Qed.

Example autogenerate_sample :
  autogenerate_empty_prefix (lit "aa: ab: q") 2 (lit "abc")
  = Return (lit "ac").
Proof. vm_compute. reflexivity. Qed.

Example postcondition_sample :
  let r := @postcondition normalize_integer
             [(URIRef (lit "s"), URIRef (lit "p"), URIRef (lit "Person_LINE_5"))]
             empty in
  triples_of r = Return [(URIRef (lit "s"), URIRef (lit "p"), URIRef (lit "Person"))]
  /\ line_number_of r (URIRef (lit "s")) = Return (Some 5%Z).
Proof. split; vm_compute; reflexivity. Qed.

Example embed_sample :
  embed_line_numbers (join nl [py "{"; py "    '@type': 'Person',"; py "}"])
  = join nl [py "{"; py "    '@type': 'Person_LINE_2',"; py "}"].
Proof. vm_compute. reflexivity. Qed.

Example replace_sample :
  replace_empty_prefix (py "{'': 'http://x/', 'k': ':v', ':w': 1}") (lit "aaa")
  = Return (py "{'aaa': 'http://x/', 'k': 'aaa:v', 'aaa:w': 1}").
Proof. vm_compute. reflexivity. Qed.

(** ** Lists of characters *)

Lemma strip_prefix_Some sep s r : strip_prefix sep s = Some r <-> s = sep ++ r.
Proof.
  revert s. induction sep as [|a sep IH]; intros s; simpl.
  - split; intros H; congruence.
  - destruct s as [|b s]; [split; intros H; discriminate|].
    destruct (Ascii.eqb_spec a b) as [->|Hne].
    + rewrite IH. split; intros H; congruence.
    + split; intros H; [discriminate|]. congruence.
Qed.

Lemma strip_prefix_None sep s :
  strip_prefix sep s = None -> forall r, s <> sep ++ r.
Proof.
  intros H r Hs. apply strip_prefix_Some in Hs. congruence.
Qed.

Lemma split_from_skip sep k cur s :
  k <= length s -> split_from sep k cur s = split_from sep 0 cur (drop k s).
Proof.
  revert k. induction s as [|c s IH]; intros k Hk; simpl in *.
  - destruct k; [reflexivity | lia].
  - destruct k as [|k]; [reflexivity|]. simpl. apply IH. lia.
Qed.

(** A text without the separator is not cut. *)
Lemma split_from_absent sep s cur :
  ~ occurs sep s -> split_from sep 0 cur s = [rev cur ++ s].
Proof.
  revert cur. induction s as [|c s IH]; intros cur Hno; simpl.
  - by rewrite app_nil_r.
  - destruct (strip_prefix sep (c :: s)) as [r|] eqn:Hp.
    + apply strip_prefix_Some in Hp. destruct Hno. exists [], r. exact Hp.
    + rewrite IH.
      * simpl. by rewrite <- app_assoc.
      * intros (a & b & ->). apply Hno. by exists (c :: a), b.
Qed.

(** Characters that cannot start the separator are collected. *)
Lemma split_from_run sep0 sep d cur s :
  Forall (fun c => c <> sep0) d ->
  split_from (sep0 :: sep) 0 cur (d ++ s)
  = split_from (sep0 :: sep) 0 (rev d ++ cur) s.
Proof.
  revert cur. induction d as [|c d IH]; intros cur Hd; [reflexivity|].
  inversion Hd as [|? ? Hc Hd']; subst. cbn [app split_from strip_prefix].
  destruct (Ascii.eqb_spec sep0 c) as [->|_]; [done|].
  rewrite IH by done. simpl. by rewrite <- app_assoc.
Qed.

Lemma occurs_rev sub s : occurs (rev sub) (rev s) <-> occurs sub s.
Proof.
  split; intros (a & b & H).
  - exists (rev b), (rev a).
    apply (f_equal (@rev ascii)) in H. rewrite rev_involutive in H.
    rewrite H, !rev_app_distr, rev_involutive. by rewrite <- app_assoc.
  - exists (rev b), (rev a). rewrite H, !rev_app_distr. by rewrite <- app_assoc.
Qed.

Lemma rsplit_absent sep s : ~ occurs sep s -> rsplit sep s = [s].
Proof.
  intros Hno. unfold rsplit, split.
  rewrite split_from_absent by (by rewrite occurs_rev).
  simpl. by rewrite rev_involutive.
Qed.

(** One separator, followed by characters that are not the last
    character of the separator: one cut. *)
Lemma rsplit_suffix sep0 sep v d :
  ~ occurs (sep ++ [sep0]) v ->
  Forall (fun c => c <> sep0) d ->
  rsplit (sep ++ [sep0]) (v ++ (sep ++ [sep0]) ++ d) = [v; d].
Proof.
  intros Hno Hd. unfold rsplit, split.
  rewrite !rev_app_distr. simpl. rewrite <- !app_assoc.
  rewrite split_from_run by (by apply Forall_rev).
  rewrite rev_involutive, app_nil_r. simpl.
  rewrite Ascii.eqb_refl.
  rewrite (proj2 (strip_prefix_Some (rev sep) _ (rev v))) by done.
  rewrite length_rev, Nat.sub_0_r.
  rewrite split_from_skip by (rewrite length_app, length_rev; lia).
  rewrite drop_app_length' by (by rewrite length_rev).
  rewrite split_from_absent.
  - simpl. by rewrite !rev_involutive.
  - change (sep0 :: rev sep) with (rev [sep0] ++ rev sep).
    rewrite <- rev_app_distr. by rewrite occurs_rev.
Qed.

(** ** [str] and [int] are inverse on the naturals *)

Lemma digit_char_props d :
  (d < 10)%N ->
  is_digit (digit_char d) /\ (N_of_ascii (digit_char d) - 48 = d)%N
  /\ digit_char d <> "_"%char /\ int_space (digit_char d) = false
  /\ digit_char d <> "-"%char /\ digit_char d <> "+"%char.
Proof.
  intros H.
  assert (d = 0 \/ d = 1 \/ d = 2 \/ d = 3 \/ d = 4 \/ d = 5 \/ d = 6
          \/ d = 7 \/ d = 8 \/ d = 9)%N as Hd by lia.
  repeat destruct Hd as [->|Hd]; try subst d;
    refine (conj _ (conj _ (conj _ (conj _ (conj _ _)))));
    try reflexivity; intros E; vm_compute in E; discriminate E.
Qed.

Lemma is_digit_not_underscore c : is_digit c -> c <> "_"%char.
Proof. intros H ->. discriminate H. Qed.

Lemma int_digits_value d acc :
  d <> [] -> Forall is_digit d -> int_digits acc d = Some (value_from acc d).
Proof.
  revert acc. induction d as [|c d IH]; intros acc Hne Hd; [done|].
  inversion Hd as [|? ? Hc Hd']; subst. simpl.
  unfold digit_value. rewrite Hc.
  destruct d as [|u d]; [reflexivity|].
  inversion Hd' as [|? ? Hu _]; subst.
  destruct (Ascii.eqb_spec u "_"%char) as [->|_]; [discriminate Hu|].
  by apply IH.
Qed.

Lemma digits_of_spec fuel n acc :
  (n < 10 ^ N.of_nat fuel)%N -> Forall is_digit acc ->
  Forall is_digit (digits_of fuel n acc)
  /\ value_from 0%N (digits_of fuel n acc) = value_from n acc
  /\ (fuel <> 0 -> digits_of fuel n acc <> []).
Proof.
  revert n acc. induction fuel as [|fuel IH]; intros n acc Hn Hacc.
  - simpl in *. assert (n = 0%N) as -> by lia. done.
  - cbn [digits_of].
    assert (n mod 10 < 10)%N as Hm by (apply N.mod_upper_bound; lia).
    destruct (digit_char_props _ Hm) as (Hdig & Hval & _).
    destruct (N.ltb_spec n 10) as [Hlt|Hge].
    + rewrite N.mod_small in * by done. repeat split; [by constructor| |done].
      simpl. by rewrite Hval.
    + assert (n / 10 < 10 ^ N.of_nat fuel)%N as Hq.
      { apply N.Div0.div_lt_upper_bound.
        rewrite Nat2N.inj_succ, N.pow_succ_r' in Hn. lia. }
      destruct (IH (n / 10)%N (digit_char (n mod 10) :: acc) Hq
                  ltac:(by constructor)) as (H1 & H2 & H3).
      repeat split; [done| |].
      * rewrite H2. simpl. rewrite Hval. f_equal.
        pose proof (N.div_mod n 10 ltac:(lia)). lia.
      * intros _. destruct fuel; [|by apply H3].
        simpl in Hq. assert (n / 10 = 0)%N as Hz by lia.
        apply N.div_small_iff in Hz; lia.
Qed.

Lemma str_N_spec n :
  Forall is_digit (str_N n) /\ str_N n <> [] /\ value_from 0%N (str_N n) = n.
Proof.
  unfold str_N.
  assert (n < 10 ^ N.of_nat (S (N.to_nat (N.log2 n))))%N as Hn.
  { rewrite Nat2N.inj_succ, N2Nat.id.
    destruct (N.eq_dec n 0%N) as [->|Hnz]; [done|].
    apply N.lt_le_trans with (2 ^ N.succ (N.log2 n))%N.
    - apply N.log2_spec. lia.
    - apply N.pow_le_mono_l. lia. }
  destruct (digits_of_spec _ n [] Hn ltac:(constructor)) as (H1 & H2 & H3).
  repeat split; [done | by apply H3 | done].
Qed.

Lemma lstrip_head p c s : p c = false -> lstrip p (c :: s) = c :: s.
Proof. intros H. simpl. by rewrite H. Qed.

Lemma strip_digits d :
  d <> [] -> Forall is_digit d -> strip int_space d = d.
Proof.
  intros Hne Hd.
  assert (forall c, is_digit c -> int_space c = false) as Hsp.
  { intros c Hc. unfold is_digit, int_space, between, code in *.
    destruct (nat_of_ascii c) as [|k] eqn:E; [discriminate|].
    apply andb_true_iff in Hc as [H1 H2].
    apply Nat.leb_le in H1, H2.
    rewrite !orb_false_iff. repeat split.
    - apply andb_false_iff. right. apply Nat.leb_gt. lia.
    - apply Nat.eqb_neq. lia.
    - apply Nat.eqb_neq. lia.
    - apply Nat.eqb_neq. lia. }
  unfold strip. destruct d as [|c d]; [done|].
  inversion Hd; subst. rewrite lstrip_head by auto.
  destruct (rev (c :: d)) as [|x r] eqn:E.
  - apply (f_equal (@length ascii)) in E. rewrite length_rev in E. done.
  - assert (is_digit x) as Hx.
    { eapply Forall_forall; [apply Forall_rev, Hd|]. rewrite E. left. }
    rewrite lstrip_head by auto. rewrite <- E. apply rev_involutive.
Qed.

(** [int(str(n)) == n] for every natural [n]. *)
Lemma int_str_N n : int (str_N n) = Return (Z.of_N n).
Proof.
  destruct (str_N_spec n) as (Hd & Hne & Hv).
  unfold int. rewrite strip_digits by done.
  destruct (str_N n) as [|c t] eqn:E; [done|].
  assert (is_digit c) as Hc by (by inversion Hd).
  destruct (Ascii.eqb_spec c "-"%char) as [->|_]; [discriminate Hc|].
  destruct (Ascii.eqb_spec c "+"%char) as [->|_]; [discriminate Hc|].
  rewrite int_digits_value by done. rewrite Hv. f_equal. lia.
Qed.

(** ** The codec *)

Lemma extract_line_number_absent text :
  ~ occurs LINE text -> extract_line_number text = Return (text, None).
Proof.
  intros H. unfold extract_line_number. by rewrite rsplit_absent.
Qed.

(** A value without separator followed by one suffix of digits. *)
Lemma extract_line_number_digits v d :
  ~ occurs LINE v -> Forall is_digit d ->
  extract_line_number (v ++ LINE ++ d)
  = let* number := int d in Return (v, Some number).
Proof.
  intros Hv Hd. unfold extract_line_number.
  change LINE with (lit "_LINE" ++ ["_"%char]) in *.
  rewrite rsplit_suffix; [reflexivity | done |].
  eapply Forall_impl; [exact Hd|]. apply is_digit_not_underscore.
Qed.

Lemma contains_occurs sub s : contains sub s = true <-> occurs sub s.
Proof.
  induction s as [|c s IH]; simpl.
  - destruct (strip_prefix sub []) as [r|] eqn:E.
    + apply strip_prefix_Some in E. split; [|done]. intros _. by exists [], r.
    + split; [done|]. intros (a & b & H).
      destruct a; [|done]. simpl in H.
      by destruct (strip_prefix_None _ _ E b).
  - destruct (strip_prefix sub (c :: s)) as [r|] eqn:E.
    + apply strip_prefix_Some in E. split; [|done]. intros _. by exists [], r.
    + rewrite IH. split.
      * intros (a & b & ->). by exists (c :: a), b.
      * intros (a & b & H). destruct a as [|x a].
        -- by destruct (strip_prefix_None _ _ E b).
        -- injection H as _ ->. by exists a, b.
Qed.

Lemma contains_false sub s : contains sub s = false <-> ~ occurs sub s.
Proof.
  rewrite <- contains_occurs. destruct (contains sub s); split; congruence.
Qed.

(** ** The claims on the codec *)

(** C1 (the code departs from it). [extract_line_number] is to cut the
    text at the LAST separator. On a text with two separators the code
    returns what stands before the FIRST one and the number between the
    two, where the decoding of the specification returns everything
    before the last separator and the number after it. *)
Theorem extract_line_number_two_separators :
  extract_line_number (lit "a_LINE_1_LINE_2") = Return (lit "a", Some 1%Z)
  /\ decode (lit "a_LINE_1_LINE_2") = Return (lit "a_LINE_1", Some 2%Z).
Proof. split; reflexivity. Qed.

(** C4. Decoding an encoding gives the value and the line number back:
    for every natural [n] and every [v] without the separator,
    [extract_line_number(v + '_LINE_' + str(n)) == (v, n)]. *)
Theorem extract_line_number_encode (v : str) (n : Z) :
  contains LINE v = false -> (0 <= n)%Z ->
  extract_line_number (encode v n) = Return (v, Some n).
Proof.
  intros Hv Hn. apply contains_false in Hv. unfold encode.
  assert (str_int n = str_N (Z.to_N n)) as -> by (destruct n; [done|done|lia]).
  destruct (str_N_spec (Z.to_N n)) as (Hd & _ & _).
  rewrite extract_line_number_digits by done.
  rewrite int_str_N. simpl. by rewrite Z2N.id.
Qed.

Lemma extract_line_number_encode_witness :
  contains LINE (lit "Person") = false /\ (0 <= 5)%Z
  /\ extract_line_number (encode (lit "Person") 5) = Return (lit "Person", Some 5%Z).
Proof.
  split; [reflexivity|]. split; [lia|].
  apply extract_line_number_encode; [reflexivity | lia].
Defined.

(** ** What the matcher computes *)

Lemma star_runs_spec p s s' :
  In s' (star_runs p s) <-> exists w, s = w ++ s' /\ forallb p w = true.
Proof.
  revert s'. induction s as [|c s IH]; intros s'; simpl.
  - split.
    + intros [<-|[]]. by exists [].
    + intros (w & H & _). left. symmetry in H.
      by apply app_eq_nil in H as [_ ->].
  - destruct (p c) eqn:Hc.
    + rewrite in_app_iff, IH. simpl. split.
      * intros [(w & -> & Hw)|[<-|[]]].
        -- exists (c :: w). simpl. by rewrite Hc, Hw.
        -- by exists [].
      * intros (w & H & Hw). destruct w as [|x w]; simpl in *.
        -- right. by left.
        -- injection H as <- ->. apply andb_true_iff in Hw as [_ Hw].
           left. by exists w.
    + simpl. split.
      * intros [<-|[]]. by exists [].
      * intros (w & H & Hw). destruct w as [|x w]; simpl in *; [by left|].
        injection H as <- ->. rewrite Hc in Hw. done.
Qed.

Lemma rep_run_spec n p s s' :
  In s' (rep_run n p s)
  <-> exists w, s = w ++ s' /\ length w = n /\ forallb p w = true.
Proof.
  revert s. induction n as [|n IH]; intros s; simpl.
  - split.
    + intros [<-|[]]. by exists [].
    + intros (w & -> & Hl & _). destruct w; [by left | done].
  - destruct s as [|c s]; simpl.
    + split; [done|]. intros (w & H & Hl & _). by destruct w.
    + destruct (p c) eqn:Hc.
      * rewrite IH. split.
        -- intros (w & -> & Hl & Hw). exists (c :: w). simpl.
           by rewrite Hc, Hw, Hl.
        -- intros (w & H & Hl & Hw). destruct w as [|x w]; [done|].
           simpl in *. injection H as <- ->. injection Hl as Hl.
           apply andb_true_iff in Hw as [_ Hw]. by exists w.
      * split; [done|]. intros (w & H & Hl & Hw).
        destruct w as [|x w]; [done|]. simpl in *. injection H as <- ->.
        by rewrite Hc in Hw.
Qed.

Lemma consumed_app w s' : consumed (w ++ s') s' = w.
Proof.
  unfold consumed. rewrite length_app.
  replace (length w + length s' - length s') with (length w) by lia.
  by rewrite take_app_length.
Qed.

(** The candidates of [run] are the matches of the pattern. *)
Lemma run_spec r s g s' :
  In (g, s') (run r s) <-> exists w, s = w ++ s' /\ Matches r w g.
Proof.
  revert s g s'. induction r as [|l|p|p|n p|r1 IH1 r2 IH2|r1 IH1 r2 IH2|r IH];
    intros s g s'; simpl.
  - split.
    + intros [[= <- <-]|[]]. by exists [].
    + intros (w & -> & -> & ->). by left.
  - destruct (strip_prefix l s) as [t|] eqn:E.
    + apply strip_prefix_Some in E as ->. split.
      * intros [[= <- <-]|[]]. by exists l.
      * intros (w & H & -> & ->). apply app_inv_head in H as ->. by left.
    + split; [done|]. intros (w & -> & -> & _).
      by destruct (strip_prefix_None _ _ E s').
  - rewrite in_map_iff. split.
    + intros (t & [= <- <-] & Ht). apply star_runs_spec in Ht as (w & -> & Hw).
      by exists w.
    + intros (w & -> & Hw & ->). exists s'. split; [done|].
      apply star_runs_spec. by exists w.
  - destruct s as [|c s].
    + split; [done|]. intros (w & H & Hne & _). by destruct w.
    + destruct (p c) eqn:Hc.
      * rewrite in_map_iff. split.
        -- intros (t & [= <- <-] & Ht).
           apply star_runs_spec in Ht as (w & -> & Hw).
           exists (c :: w). simpl. by rewrite Hc, Hw.
        -- intros (w & H & Hne & Hw & ->). destruct w as [|x w]; [done|].
           simpl in *. injection H as <- ->.
           apply andb_true_iff in Hw as [_ Hw].
           exists s'. split; [done|]. apply star_runs_spec. by exists w.
      * split; [done|]. intros (w & H & Hne & Hw & ->).
        destruct w as [|x w]; [done|]. simpl in *. injection H as <- ->.
        by rewrite Hc in Hw.
  - rewrite in_map_iff. split.
    + intros (t & [= <- <-] & Ht). apply rep_run_spec in Ht as (w & -> & Hl & Hw).
      by exists w.
    + intros (w & -> & Hl & Hw & ->). exists s'. split; [done|].
      apply rep_run_spec. by exists w.
  - rewrite in_flat_map. split.
    + intros ([g1 s1] & H1 & H2). apply in_map_iff in H2 as ([g2 s2] & E & H2).
      simpl in E, H2. injection E as <- <-.
      apply IH1 in H1 as (w1 & -> & M1). apply IH2 in H2 as (w2 & -> & M2).
      exists (w1 ++ w2). split; [by rewrite <- app_assoc|].
      by exists w1, w2, g1, g2.
    + intros (w & -> & w1 & w2 & g1 & g2 & -> & -> & M1 & M2).
      exists (g1, w2 ++ s'). split.
      * apply IH1. exists w1. by rewrite <- app_assoc.
      * apply in_map_iff. exists (g2, s'). split; [done|].
        apply IH2. by exists w2.
  - rewrite in_app_iff, IH1, IH2. split.
    + intros [(w & -> & M)|(w & -> & M)]; exists w; auto.
    + intros (w & -> & [M|M]); [left|right]; by exists w.
  - rewrite in_map_iff. split.
    + intros ([g1 s1] & E & H). simpl in E. injection E as <- <-.
      apply IH in H as (w & -> & M). exists w. split; [done|].
      exists g1. by rewrite consumed_app.
    + intros (w & -> & g1 & -> & M). exists (g1, s'). simpl.
      rewrite consumed_app. split; [done|]. apply IH. by exists w.
Qed.

Lemma re_match_Some r s g s' :
  re_match r s = Some (g, s') -> exists w, s = w ++ s' /\ Matches r w g.
Proof.
  unfold re_match. intros H. apply run_spec.
  destruct (run r s); [done|]. simpl in H. injection H as ->. by left.
Qed.

Lemma re_match_None r s :
  re_match r s = None -> forall w s' g, s = w ++ s' -> ~ Matches r w g.
Proof.
  unfold re_match. intros H w s' g Hs M.
  assert (In (g, s') (run r s)) as Hin by (apply run_spec; by exists w).
  by destruct (run r s).
Qed.

Lemma re_match_complete r w s' g :
  Matches r w g -> exists g2 s2, re_match r (w ++ s') = Some (g2, s2).
Proof.
  intros M. unfold re_match.
  assert (In (g, s') (run r (w ++ s'))) as Hin by (apply run_spec; by exists w).
  destruct (run r (w ++ s')) as [|[g2 s2] ?]; [done|]. by exists g2, s2.
Qed.

(** ** The scan *)

Lemma app_eq_app_lt (x b w rest : str) :
  x ++ b = w ++ rest -> length x < length w ->
  exists y, w = x ++ y /\ y <> [] /\ b = y ++ rest.
Proof.
  intros H Hl. apply app_eq_app in H as (l & [[-> ->]|[-> ->]]).
  - rewrite length_app in Hl. lia.
  - exists l. split; [done|]. split; [|done].
    intros ->. rewrite app_nil_r in Hl. lia.
Qed.

Lemma hits_app ps qs : hits (ps ++ qs) = hits ps ++ hits qs.
Proof. apply omap_app. Qed.

Section Scan.

Variable r : regex.
Hypothesis r_positive : positive r.
Hypothesis r_apart : apart r.

(** After a match, the next occurrence starts behind it. *)
Lemma next_match_far x b2 w rest g g2 rest2 :
  Matches r w g -> x <> [] ->
  x ++ b2 = w ++ rest -> re_match r b2 = Some (g2, rest2) ->
  length w <= length x.
Proof.
  intros M Hx H H2. destruct (Nat.le_gt_cases (length w) (length x)); [done|].
  destruct (app_eq_app_lt _ _ _ _ H ltac:(done)) as (y & -> & Hy & ->).
  apply re_match_Some in H2 as (w2 & H2 & M2).
  by destruct (r_apart x y g rest w2 g2 rest2).
Qed.

(** A match at [b] is reported by the scan of [a ++ b], which resumes
    after it. *)
Lemma scan_split a b skip g rest :
  skip <= length a ->
  re_match r b = Some (g, rest) ->
  exists pre,
    scan r skip (a ++ b)
    = pre ++ Hit g :: scan r (length b - length rest - 1) (tail b).
Proof.
  revert skip.
  induction a as [|x a IH]; intros skip Hs Hb.
  - assert (skip = 0) as -> by (simpl in Hs; lia).
    destruct b as [|c b].
    + apply re_match_Some in Hb as (w & Hw & M). symmetry in Hw.
      apply app_eq_nil in Hw as [-> _]. by destruct (r_positive _ _ M).
    + exists []. simpl. by rewrite Hb.
  - cbn [app scan]. destruct skip as [|k].
    + destruct (re_match r (x :: a ++ b)) as [[g' rest']|] eqn:E.
      * apply re_match_Some in E as (w & Hw & M).
        assert (length w <= length (x :: a)) as Hfar.
        { eapply next_match_far; [exact M | done | exact Hw | exact Hb]. }
        destruct (IH (length (x :: a ++ b) - length rest' - 1)) as [pre Hpre];
          [|done|].
        { rewrite Hw, length_app. simpl in Hfar. lia. }
        exists (Hit g' :: pre). simpl in *. by rewrite Hpre.
      * destruct (IH 0) as [pre Hpre]; [lia | done |].
        exists (Gap x :: pre). simpl. by rewrite Hpre.
    + destruct (IH k) as [pre Hpre]; [simpl in Hs; lia | done |].
      by exists pre.
Qed.

(** Two occurrences of the pattern are two matches of the scan. *)
Lemma scan_two text i j :
  i < j ->
  matches_at r text i = true -> matches_at r text j = true ->
  2 <= length (hits (scan r 0 text)).
Proof.
  intros Hij Hi Hj. unfold matches_at in *.
  destruct (re_match r (drop i text)) as [[g1 rest1]|] eqn:E1; [|done].
  destruct (re_match r (drop j text)) as [[g2 rest2]|] eqn:E2; [|done].
  assert (j < length text) as Hjl.
  { destruct (Nat.lt_ge_cases j (length text)); [done|].
    rewrite drop_ge in E2 by done.
    apply re_match_Some in E2 as (w & Hw & M). symmetry in Hw.
    apply app_eq_nil in Hw as [-> _]. by destruct (r_positive _ _ M). }
  destruct (scan_split (take i text) (drop i text) 0 g1 rest1)
    as [pre Hpre]; [lia | done |].
  rewrite take_drop in Hpre. rewrite Hpre, hits_app. simpl.
  destruct (drop i text) as [|c b] eqn:Eb.
  { apply (f_equal (@length ascii)) in Eb. rewrite length_drop in Eb.
    simpl in Eb. lia. }
  simpl tail.
  assert (drop j text = drop (j - i - 1) b) as Ej.
  { replace j with (i + (j - i)) at 1 by lia.
    rewrite <- drop_drop, Eb. remember (j - i - 1) as k eqn:Ek.
    replace (j - i) with (S k) by lia. reflexivity. }
  rewrite Ej in E2.
  assert (j - i - 1 <= length b) as Hb.
  { apply (f_equal (@length ascii)) in Eb. rewrite length_drop in Eb.
    simpl in Eb. lia. }
  pose proof E1 as E1'. apply re_match_Some in E1' as (w & Hw & M).
  assert (length w <= length (c :: take (j - i - 1) b)) as Hfar.
  { eapply next_match_far; [exact M | done | | exact E2].
    rewrite <- Hw. simpl. by rewrite take_drop. }
  destruct (scan_split (take (j - i - 1) b) (drop (j - i - 1) b)
              (length (c :: b) - length rest1 - 1) g2 rest2)
    as [pre2 Hpre2]; [|done|].
  { rewrite Hw, length_app. simpl in Hfar. lia. }
  rewrite take_drop in Hpre2. rewrite Hpre2, hits_app.
  rewrite length_app. simpl. rewrite length_app. simpl. lia.
Qed.

End Scan.

(** Without an occurrence the scan passes over every character. *)
Lemma scan_absent r text :
  (forall i, matches_at r text i = false) -> scan r 0 text = map Gap text.
Proof.
  induction text as [|c text IH]; intros H; [reflexivity|]. simpl.
  pose proof (H 0) as H0. unfold matches_at in H0. simpl in H0.
  destruct (re_match r (c :: text)); [done|]. f_equal.
  apply IH. intros i. apply (H (S i)).
Qed.

Lemma subn_absent r repl text :
  (forall i, matches_at r text i = false) -> subn r repl text = (text, 0).
Proof.
  intros H. unfold subn. rewrite scan_absent by done. clear H. f_equal.
  - induction text as [|c text IH]; [done|]. simpl. by f_equal.
  - induction text as [|c text IH]; [done|]. exact IH.
Qed.

(** ** The empty-prefix declaration pattern *)

Lemma empty_context_shape w g :
  Matches empty_context_pattern w g ->
  exists ws scheme,
    w = dq :: dq :: ":"%char :: ws ++ dq :: scheme ++ lit "://"
    /\ forallb is_space ws = true
    /\ (scheme = lit "http" \/ scheme = lit "https" \/ scheme = lit "file").
Proof.
  unfold empty_context_pattern. simpl.
  intros (w1 & w2 & g1 & g2 & -> & -> & [-> ->] & g' & -> & M).
  destruct M as (ws & w3 & ? & ? & -> & -> & [Hws ->] & M).
  destruct M as (w4 & w5 & ? & ? & -> & -> & [-> ->] & M).
  destruct M as (scheme & w6 & ? & ? & -> & -> & Hs & [-> ->]).
  exists ws, scheme. split; [reflexivity|]. split; [done|].
  destruct Hs as [[-> ->]|[[-> ->]|[-> ->]]]; auto.
Qed.

Lemma no_quotes_nil : no_quotes_inside [].
Proof. intros x y rest z H Hy. by destruct x, y. Qed.

Lemma no_quotes_cons c t :
  c <> dq -> no_quotes_inside t -> no_quotes_inside (c :: t).
Proof.
  intros Hc Ht x y rest z H Hy. destruct x as [|c' x]; simpl in H.
  - subst y. simpl. congruence.
  - injection H as -> ->. by apply (Ht x y rest z).
Qed.

Lemma no_quotes_quote c t :
  c <> dq -> no_quotes_inside (c :: t) -> no_quotes_inside (dq :: c :: t).
Proof.
  intros Hc Ht x y rest z H Hy. destruct x as [|c' x]; simpl in H.
  - subst y. simpl. congruence.
  - injection H as _ H. by apply (Ht x y rest z).
Qed.

Lemma is_space_not_quote c : is_space c = true -> c <> dq.
Proof. intros H ->. discriminate H. Qed.

Lemma empty_token_positive : positive empty_token_pattern.
Proof.
  intros w g (w1 & w2 & g1 & g2 & -> & _ & [-> _] & _). done.
Qed.

Lemma empty_context_positive : positive empty_context_pattern.
Proof.
  intros w g M. by apply empty_context_shape in M as (ws & scheme & -> & _).
Qed.

Lemma empty_context_apart : apart empty_context_pattern.
Proof.
  intros x y g rest w2 g2 rest2 M Hx Hy E M2.
  apply empty_context_shape in M as (ws & scheme & Hw & Hws & Hs).
  apply empty_context_shape in M2 as (ws2 & scheme2 & -> & _).
  destruct x as [|c x]; [done|]. simpl in Hw. injection Hw as -> Hw.
  assert (no_quotes_inside (dq :: ":"%char :: ws ++ dq :: scheme ++ lit "://"))
    as Hclean.
  { apply no_quotes_quote; [discriminate|]. apply no_quotes_cons; [discriminate|].
    clear Hw. induction ws as [|s ws IH].
    - simpl in *.
      destruct Hs as [-> | [-> | ->]]; simpl;
        (apply no_quotes_quote; [discriminate|]);
        repeat (apply no_quotes_cons; [discriminate|]); apply no_quotes_nil.
    - simpl in Hws. apply andb_true_iff in Hws as [Hs1 Hws].
      simpl. apply no_quotes_cons; [by apply is_space_not_quote | by apply IH]. }
  symmetry in Hw. exact (Hclean x y rest _ Hw Hy E).
Qed.

(** ** Counting occurrences *)

Lemma matches_at_ge r text i :
  length text <= i -> matches_at r text i = matches_at r text (length text).
Proof.
  intros H. unfold matches_at. by rewrite !drop_ge by lia.
Qed.

Lemma occurrences_zero r text :
  occurrences r text = 0 -> forall i, matches_at r text i = false.
Proof.
  unfold occurrences. intros H i. apply length_zero_iff_nil in H.
  assert (forall k, k <= length text -> matches_at r text k = false) as Hk.
  { intros k Hk. destruct (matches_at r text k) eqn:E; [|done].
    assert (elem_of k (filter (fun i => matches_at r text i = true)
                              (seq 0 (S (length text))))) as Hin.
    { apply list_elem_of_filter. split; [done|]. apply elem_of_seq. lia. }
    rewrite H in Hin. by apply elem_of_nil in Hin. }
  destruct (Nat.le_gt_cases i (length text)); [by apply Hk|].
  rewrite matches_at_ge by lia. by apply Hk.
Qed.

Lemma filter_seq_one (P : nat -> Prop) `{!forall i, Decision (P i)} a n :
  1 <= length (filter P (seq a n)) -> exists j, a <= j /\ P j.
Proof.
  revert a. induction n as [|n IH]; intros a Hl; simpl in Hl; [lia|].
  rewrite filter_cons in Hl. destruct (decide (P a)).
  - exists a. split; [lia | done].
  - destruct (IH (S a) Hl) as (j & Hj & Pj). exists j. split; [lia | done].
Qed.

Lemma filter_seq_two (P : nat -> Prop) `{!forall i, Decision (P i)} a n :
  2 <= length (filter P (seq a n)) -> exists i j, i < j /\ P i /\ P j.
Proof.
  revert a. induction n as [|n IH]; intros a Hl; simpl in Hl; [lia|].
  rewrite filter_cons in Hl. destruct (decide (P a)).
  - simpl in Hl.
    destruct (filter_seq_one P (S a) n ltac:(lia)) as (j & Hj & Pj).
    exists a, j. split; [lia | done].
  - by apply (IH (S a)).
Qed.

Lemma occurrences_two r text :
  1 < occurrences r text ->
  exists i j, i < j /\ matches_at r text i = true /\ matches_at r text j = true.
Proof. unfold occurrences. intros H. by apply filter_seq_two in H. Qed.

(** ** The claims on [replace_empty_prefix] *)

(** C7. A text with more than one occurrence of the empty-prefix
    declaration pattern makes [replace_empty_prefix] raise; no text,
    rewritten in part or in full, is returned, and [precondition] raises
    the same exception. *)
Theorem replace_empty_prefix_multiple (text empty_prefix : str) :
  1 < occurrences empty_context_pattern text ->
  replace_empty_prefix text empty_prefix = Raise multiple_tokens
  /\ precondition text (Some empty_prefix) = Raise multiple_tokens.
Proof.
  intros H. apply occurrences_two in H as (i & j & Hij & Hi & Hj).
  pose proof (scan_two _ empty_context_positive empty_context_apart
                _ _ _ Hij Hi Hj) as Hc.
  assert (replace_empty_prefix text empty_prefix = Raise multiple_tokens) as E.
  { unfold replace_empty_prefix, subn.
    destruct (length (hits (scan empty_context_pattern 0 text)))
      as [|[|count]] eqn:Ec; [lia | lia | reflexivity]. }
  split; [exact E|]. unfold precondition. simpl. by rewrite E.
Qed.

Lemma replace_empty_prefix_multiple_witness :
  1 < occurrences empty_context_pattern
        (py "{'': 'http://a/', '':'file:///b/'}")
  /\ replace_empty_prefix (py "{'': 'http://a/', '':'file:///b/'}") (lit "aaa")
     = Raise multiple_tokens.
Proof.
  split; [vm_compute; lia|].
  apply (replace_empty_prefix_multiple _ (lit "aaa")). vm_compute. lia.
Defined.

(** C10. A text with no occurrence of the empty-prefix declaration
    pattern is returned unchanged by [replace_empty_prefix], without an
    error and without rewriting any empty-prefixed token, and
    [precondition] goes on to embed the line numbers in that text. *)
Theorem replace_empty_prefix_absent (text empty_prefix : str) :
  occurrences empty_context_pattern text = 0 ->
  replace_empty_prefix text empty_prefix = Return text
  /\ precondition text (Some empty_prefix) = Return (embed_line_numbers text)
  /\ (forall prefix,
        autogenerate_empty_prefix text DEFAULT_PREFIX_LENGTH DEFAULT_ALPHABET
        = Return prefix ->
        precondition text None = Return (embed_line_numbers text)).
Proof.
  intros H. pose proof (occurrences_zero _ _ H) as Hno.
  assert (forall p, replace_empty_prefix text p = Return text) as E.
  { intros p. unfold replace_empty_prefix. by rewrite subn_absent. }
  split; [apply E|]. split.
  - unfold precondition. simpl. by rewrite E.
  - intros prefix Hp. unfold precondition. rewrite Hp. simpl. by rewrite E.
Qed.

Lemma replace_empty_prefix_absent_witness :
  occurrences empty_context_pattern (py "{'k': ':v', '@type': 'T',}") = 0
  /\ replace_empty_prefix (py "{'k': ':v', '@type': 'T',}") (lit "aaa")
     = Return (py "{'k': ':v', '@type': 'T',}").
Proof.
  split; [vm_compute; reflexivity|].
  apply (replace_empty_prefix_absent _ (lit "aaa")). vm_compute. reflexivity.
Defined.

(** ** The taken prefixes *)

Lemma match_string_shape n w g :
  Matches (match_string n) w g
  <-> exists u, w = u ++ lit ":" /\ g = [u] /\ length u = n
                /\ forallb is_word u = true.
Proof.
  unfold match_string. simpl. split.
  - intros (w1 & w2 & g1 & g2 & -> & -> & (g' & -> & Hl & Hw & ->) & -> & ->).
    by exists w1.
  - intros (u & -> & -> & Hl & Hw).
    exists u, (lit ":"), [u], []. repeat split; try done. by exists [].
Qed.

Lemma match_string_positive n : positive (match_string n).
Proof.
  intros w g M. apply match_string_shape in M as (u & -> & _). by destruct u.
Qed.

Lemma match_string_apart n : apart (match_string n).
Proof.
  intros x y g rest w2 g2 rest2 M Hx Hy E M2.
  apply match_string_shape in M as (u & Hu & _ & Hl & _).
  apply match_string_shape in M2 as (u2 & -> & _ & Hl2 & Hw2).
  (* [y] ends with the colon of the first match, which then stands
     inside the word [u2] of the second one *)
  assert (exists l, y = l ++ [":"%char] /\ length l < n) as (l & -> & Hlt).
  { change (lit ":") with [":"%char] in Hu.
    destruct (app_eq_app _ _ _ _ Hu) as (l & [[Hxl Hy'] | [Hxl Hy']]).
    - destruct l as [|c l].
      + exists []. simpl in Hy'. subst y. split; [done|].
        rewrite app_nil_r in Hxl. subst x. destruct u; [done | simpl in *; lia].
      + injection Hy' as _ Hy'. symmetry in Hy'.
        apply app_eq_nil in Hy' as [_ ->]. done.
    - exists l. split; [done|]. subst u. rewrite length_app in Hl.
      destruct x; [done | simpl in *; lia]. }
  change (lit ":") with [":"%char] in E. rewrite <- !app_assoc in E.
  assert ((l ++ [":"%char] ++ rest) !! length l = Some ":"%char) as H1.
  { by rewrite lookup_app_r, Nat.sub_diag by lia. }
  rewrite E, lookup_app_l in H1 by lia.
  apply forallb_forall with (x := ":"%char) in Hw2; [done|].
  apply list_elem_of_In. by eapply list_elem_of_lookup_2.
Qed.

(** Every [u:] of the text with [u] made of [n] word characters is found. *)
Lemma findall_match_string n u text :
  length u = n -> forallb is_word u = true -> occurs (u ++ lit ":") text ->
  elem_of u (findall (match_string n) text).
Proof.
  intros Hl Hw (a & b & ->).
  assert (Matches (match_string n) (u ++ lit ":") [u]) as M
    by (apply match_string_shape; by exists u).
  destruct (re_match_complete _ _ b _ M) as (g2 & s2 & E).
  assert (g2 = [u]) as ->.
  { pose proof E as E'. apply re_match_Some in E' as (w & Hws & M2).
    apply match_string_shape in M2 as (u2 & -> & -> & Hl2 & _).
    rewrite <- !app_assoc in Hws. apply app_inj_1 in Hws as [-> _]; [done|lia]. }
  rewrite <- app_assoc in E.
  destruct (scan_split _ (match_string_positive n) (match_string_apart n)
              a _ 0 _ _ ltac:(lia) E) as [pre Hpre].
  unfold findall. rewrite <- app_assoc, Hpre, hits_app, map_app. simpl.
  apply elem_of_app. right. left.
Qed.

(** ** The prefix generator *)

Lemma digits_loop_length alen position count digits digits' :
  digits_loop alen position count digits = Some digits' ->
  length digits' = length digits.
Proof.
  revert count digits. induction position as [|p IH]; intros count digits; simpl.
  - destruct (count =? 0); [|done]. by intros [= ->].
  - destruct (count =? 0); [by intros [= ->]|].
    destruct (alen =? 0); [done|]. intros H. apply IH in H.
    by rewrite length_insert in H.
Qed.

(** The loop stays inside the model for every count the generator uses. *)
Lemma digits_loop_total alen position count digits :
  count < alen ^ position -> Forall (fun d => d < alen) digits ->
  exists digits',
    digits_loop alen position count digits = Some digits'
    /\ Forall (fun d => d < alen) digits'.
Proof.
  revert count digits. induction position as [|p IH]; intros count digits Hc Hd.
  - simpl in *. assert (count = 0) as -> by lia. by exists digits.
  - cbn [digits_loop]. destruct (Nat.eqb_spec count 0) as [->|Hnz].
    { by exists digits. }
    destruct (Nat.eqb_spec alen 0) as [->|Ha].
    { rewrite Nat.pow_0_l in Hc by done. lia. }
    apply IH.
    + apply Nat.Div0.div_lt_upper_bound. rewrite Nat.pow_succ_r' in Hc. lia.
    + destruct (Nat.lt_ge_cases p (length digits)).
      * apply Forall_insert; [done|]. by apply Nat.mod_upper_bound.
      * by rewrite list_insert_ge.
Qed.

Lemma yield_total prefix_length alphabet count :
  count < length alphabet ^ prefix_length ->
  exists prefix, yield (PrefixGenerator_init prefix_length alphabet) count
                 = Some prefix.
Proof.
  intros Hc. unfold yield. simpl.
  destruct (digits_loop_total (length alphabet) prefix_length count
              (replicate prefix_length 0) Hc) as (ds & -> & Hds).
  { destruct prefix_length; [constructor|].
    apply Forall_replicate. destruct alphabet; simpl in *; lia. }
  clear Hc. induction ds as [|d ds IH]; [by exists []|].
  inversion Hds as [|? ? Hd Hds']; subst.
  destruct (IH Hds') as (p & Hp).
  apply lookup_lt_is_Some in Hd as [c Hc].
  exists (c :: p). apply mapM_Some. constructor; [done|]. by apply mapM_Some.
Qed.

Lemma yield_shape self count prefix :
  yield self count = Some prefix ->
  length prefix = prefix_length self
  /\ Forall (fun c => In c (alphabet self)) prefix.
Proof.
  unfold yield.
  destruct (digits_loop _ _ _ _) as [ds|] eqn:E; [|done].
  apply digits_loop_length in E. rewrite length_replicate in E.
  intros H. apply mapM_Some in H. split.
  - apply Forall2_length in H. lia.
  - clear E. induction H as [|d c ds p Hc _ IH]; constructor; [|done].
    apply list_elem_of_In. by eapply list_elem_of_lookup_2.
Qed.

Lemma for_prefix_Return self non_candidate count todo prefix :
  for_prefix self non_candidate count todo = Return prefix ->
  (exists k, yield self k = Some prefix) /\ ~ elem_of prefix non_candidate.
Proof.
  revert count. induction todo as [|todo IH]; intros count; simpl; [done|].
  destruct (yield self count) as [p|] eqn:E; [|done].
  destruct (decide (elem_of p non_candidate)); [apply IH|].
  intros [= <-]. split; [by exists count | done].
Qed.


(** The generator counts in base [len(alphabet)], most significant
    position first. *)
Example iter_counting :
  iter (PrefixGenerator_init 2 (lit "abc"))
  = map Some [lit "aa"; lit "ab"; lit "ac"; lit "ba"; lit "bb"; lit "bc";
              lit "ca"; lit "cb"; lit "cc"].
Proof. reflexivity. Qed.

(** ** The claims on [autogenerate_empty_prefix] *)

(** C5 (the code departs from it). The exhaustion error is to be raised
    only when every candidate of the requested length is taken. The
    code compares the number of taken strings with the length of the
    alphabet, not with the number of candidates: with two taken strings
    and the alphabet [ab] it raises, while [aa], the first candidate of
    the generator, does not occur in the text. *)
Theorem autogenerate_empty_prefix_gives_up :
  autogenerate_empty_prefix (lit "xx: yy:") 2 (lit "ab") = Raise could_not_find
  /\ yield (PrefixGenerator_init 2 (lit "ab")) 0 = Some (lit "aa")
  /\ contains (lit "aa:") (lit "xx: yy:") = false.
Proof. repeat split; vm_compute; reflexivity. Qed.

(** The same through [precondition], with the default length and
    alphabet: 26 taken strings of 3 characters. *)
Example precondition_gives_up :
  precondition
    (lit ("aaa:aab:aac:aad:aae:aaf:aag:aah:aai:aaj:aak:aal:aam:"
          ++ "aan:aao:aap:aaq:aar:aas:aat:aau:aav:aaw:aax:aay:aaz:")) None
  = Raise could_not_find.
Proof. vm_compute. reflexivity. Qed.

(** C6 as stated fails for an alphabet with a character that is not a
    word character: [-] is returned although [-:] is in the text. *)
Lemma autogenerate_empty_prefix_not_word :
  autogenerate_empty_prefix (lit "-:") 1 (lit "-+") = Return (lit "-")
  /\ contains (lit "-" ++ lit ":") (lit "-:") = true.
Proof. split; vm_compute; reflexivity. Qed.

(** C6, amended. For an alphabet of word characters, a prefix returned
    by [autogenerate_empty_prefix] has the requested length, is drawn
    from the alphabet, and [prefix:] does not occur in the text. *)
Theorem autogenerate_empty_prefix_unused
    (text : str) (prefix_length : nat) (alphabet prefix : str) :
  forallb is_word alphabet = true ->
  autogenerate_empty_prefix text prefix_length alphabet = Return prefix ->
  length prefix = prefix_length
  /\ Forall (fun c => In c alphabet) prefix
  /\ contains (prefix ++ lit ":") text = false.
Proof.
  intros Ha. unfold autogenerate_empty_prefix.
  destruct (_ =? _); [done|]. intros H.
  apply for_prefix_Return in H as [[k Hk] Hnot].
  apply yield_shape in Hk as [Hl Hin]. simpl in Hl, Hin.
  split; [done|]. split; [done|].
  apply contains_false. intros Hocc. apply Hnot.
  apply elem_of_list_to_set. apply findall_match_string; [done| |done].
  apply forallb_forall. intros c Hc.
  rewrite Forall_forall in Hin.
  rewrite forallb_forall in Ha. apply Ha. apply Hin. by apply list_elem_of_In.
Qed.

Lemma autogenerate_empty_prefix_unused_witness :
  forallb is_word (lit "abc") = true
  /\ autogenerate_empty_prefix (lit "aa: ab: q") 2 (lit "abc") = Return (lit "ac")
  /\ contains (lit "ac" ++ lit ":") (lit "aa: ab: q") = false.
Proof.
  split; [reflexivity|]. split; [vm_compute; reflexivity|].
  apply (autogenerate_empty_prefix_unused _ 2 (lit "abc"));
    vm_compute; reflexivity.
Defined.

(** ** What [embed_line_numbers] does to a type-declaration line *)

Lemma span_unique (P : ascii -> bool) a a' x x' (r r' : str) :
  forallb P a = true -> forallb P a' = true -> P x = false -> P x' = false ->
  a ++ x :: r = a' ++ x' :: r' -> a = a' /\ r = r'.
Proof.
  revert a'. induction a as [|c a IH]; intros [|c' a'] Ha Ha' Hx Hx' E;
    simpl in *.
  - by injection E as _ ->.
  - injection E as -> _. apply andb_true_iff in Ha' as [Hc _]. congruence.
  - injection E as -> _. apply andb_true_iff in Ha as [Hc _]. congruence.
  - injection E as -> E. apply andb_true_iff in Ha as [_ Ha].
    apply andb_true_iff in Ha' as [_ Ha'].
    destruct (IH a' Ha Ha' Hx Hx' E) as [-> ->]. done.
Qed.

Lemma type_matcher_shape w g :
  Matches type_matcher w g
  <-> exists sp sp' v,
        w = (sp ++ py "'@type':" ++ sp' ++ [dq]) ++ v ++ py "',"
        /\ g = [sp ++ py "'@type':" ++ sp' ++ [dq]; v; py "',"]
        /\ forallb is_blank sp = true /\ forallb is_blank sp' = true
        /\ v <> [] /\ forallb type_char v = true.
Proof.
  unfold type_matcher. cbn [Matches]. split.
  - intros (w1 & w2 & g1 & g2 & -> & -> & (g' & -> & M1) & M2).
    destruct M1 as (sp & w3 & ? & ? & -> & -> & [Hsp ->] & M1).
    destruct M1 as (? & w4 & ? & ? & -> & -> & [-> ->] & M1).
    destruct M1 as (sp' & ? & ? & ? & -> & -> & [Hsp' ->] & [-> ->]).
    destruct M2 as (v & ? & ? & ? & -> & -> & (? & -> & Hv & Hcls & ->) & M2).
    destruct M2 as (? & -> & -> & ->).
    exists sp, sp', v. by rewrite app_nil_r.
  - intros (sp & sp' & v & -> & -> & Hsp & Hsp' & Hv & Hcls).
    exists (sp ++ py "'@type':" ++ sp' ++ [dq]), (v ++ py "',"),
           [sp ++ py "'@type':" ++ sp' ++ [dq]], [v; py "',"].
    split; [done|]. split; [done|]. split.
    + exists []. split; [done|].
      exists sp, (py "'@type':" ++ sp' ++ [dq]), [], []. repeat split; try done.
      exists (py "'@type':"), (sp' ++ [dq]), [], []. repeat split; try done.
      exists sp', [dq], [], []. by repeat split.
    + exists v, (py "',"), [v], [py "',"]. repeat split; try done.
      * by exists [].
      * by exists [].
Qed.

(** The pattern matches a line in one way at most. *)
Lemma type_matcher_unique w g w' g' (rest rest' : str) :
  Matches type_matcher w g -> Matches type_matcher w' g' ->
  w ++ rest = w' ++ rest' -> g = g' /\ rest = rest'.
Proof.
  intros M M' E.
  apply type_matcher_shape in M as (sp & sp' & v & -> & -> & Hsp & Hsp' & Hv & Hc).
  apply type_matcher_shape in M'
    as (sp2 & sp2' & v2 & -> & -> & Hsp2 & Hsp2' & Hv2 & Hc2).
  rewrite <- !app_assoc in E. cbn [py lit map String.list_ascii_of_string app] in E.
  change (if Ascii.eqb dq "'"%char then dq else dq) with dq in *.
  apply span_unique with (P := is_blank) in E as [<- E]; try done.
  injection E as E.
  apply span_unique with (P := is_blank) in E as [<- E]; try done.
  apply span_unique with (P := type_char) in E as [<- E]; try done.
  by injection E as <-.
Qed.

Lemma re_match_type_matcher sp sp' v rest :
  forallb is_blank sp = true -> forallb is_blank sp' = true ->
  v <> [] -> forallb type_char v = true ->
  re_match type_matcher
    ((sp ++ py "'@type':" ++ sp' ++ [dq]) ++ v ++ py "'," ++ rest)
  = Some ([sp ++ py "'@type':" ++ sp' ++ [dq]; v; py "',"], rest).
Proof.
  intros Hsp Hsp' Hv Hc.
  assert (Matches type_matcher
            ((sp ++ py "'@type':" ++ sp' ++ [dq]) ++ v ++ py "',")
            [sp ++ py "'@type':" ++ sp' ++ [dq]; v; py "',"]) as M.
  { apply type_matcher_shape. by exists sp, sp', v. }
  destruct (re_match_complete _ _ rest _ M) as (g2 & s2 & E).
  pose proof E as E'. apply re_match_Some in E' as (w2 & Hw & M2).
  destruct (type_matcher_unique _ _ _ _ _ _ M M2 Hw) as [<- <-].
  rewrite <- E. f_equal. by rewrite <- !app_assoc.
Qed.

(** On a line that starts with a type declaration, the suffix is
    appended to the value; what stands before the value is kept, what
    follows the comma is not. *)
Lemma embed_line_type_declaration line_number sp sp' v rest :
  forallb is_blank sp = true -> forallb is_blank sp' = true ->
  v <> [] -> forallb type_char v = true ->
  embed_line line_number
    ((sp ++ py "'@type':" ++ sp' ++ [dq]) ++ v ++ py "'," ++ rest)
  = (sp ++ py "'@type':" ++ sp' ++ [dq])
    ++ encode v (Z.of_nat line_number + 1) ++ py "',".
Proof.
  intros Hsp Hsp' Hv Hc. unfold embed_line.
  rewrite re_match_type_matcher by done. unfold encode, group. cbn [nth Nat.sub].
  rewrite <- !app_assoc. reflexivity.
Qed.

(** *** The lines of a text *)

Lemma split_char_lines c s :
  split_char c s <> [] /\ Forall (fun line => ~ In c line) (split_char c s).
Proof.
  induction s as [|x s [IH1 IH2]]; simpl.
  - split; [done|]. constructor; [by intros []|constructor].
  - destruct (Ascii.eqb_spec x c) as [->|Hx].
    + split; [done|]. constructor; [by intros []|done].
    + destruct (split_char c s) as [|l ls]; [done|].
      split; [done|]. inversion IH2; subst. constructor; [|done].
      intros [->|H]; done.
Qed.

Lemma split_char_join c lines :
  lines <> [] -> Forall (fun line => ~ In c line) lines ->
  split_char c (join c lines) = lines.
Proof.
  induction lines as [|l lines IH]; intros Hne H; [done|].
  inversion H as [|? ? Hl Hls]; subst. clear Hne.
  assert (forall rest,
            split_char c (l ++ c :: rest) = l :: split_char c rest) as Hcut.
  { clear -Hl. induction l as [|x l IHl]; intros rest; simpl.
    - by rewrite Ascii.eqb_refl.
    - destruct (Ascii.eqb_spec x c) as [->|_]; [destruct Hl; by left|].
      rewrite IHl; [done|]. intros Hin. apply Hl. by right. }
  destruct lines as [|l2 lines].
  - simpl. clear -Hl. induction l as [|x l IHl]; simpl; [done|].
    destruct (Ascii.eqb_spec x c) as [->|_]; [destruct Hl; by left|].
    rewrite IHl; [done|]. intros Hin. apply Hl. by right.
  - change (join c (l :: l2 :: lines)) with (l ++ c :: join c (l2 :: lines)).
    rewrite Hcut. f_equal. by apply IH.
Qed.

Lemma is_digit_not_nl c : is_digit c -> c <> nl.
Proof. intros H ->. discriminate H. Qed.

Lemma embed_line_no_nl line_number line :
  ~ In nl line -> ~ In nl (embed_line line_number line).
Proof.
  intros Hl. unfold embed_line.
  destruct (re_match type_matcher line) as [[g rest]|] eqn:E; [|done].
  apply re_match_Some in E as (w & -> & M).
  apply type_matcher_shape in M as (sp & sp' & v & -> & -> & _).
  unfold group. cbn [nth Nat.sub].
  assert (str_int (Z.of_nat line_number + 1)
          = str_N (Z.to_N (Z.of_nat line_number + 1))) as ->.
  { destruct (Z.of_nat line_number + 1)%Z eqn:En; [done | done | lia]. }
  destruct (str_N_spec (Z.to_N (Z.of_nat line_number + 1))) as (Hd & _ & _).
  rewrite !in_app_iff in *. intros [H|[H|[H|[H|H]]]].
  - apply Hl. left. by left.
  - apply Hl. left. right. by left.
  - vm_compute in H. intuition discriminate.
  - rewrite Forall_forall in Hd. apply list_elem_of_In, Hd in H.
    by apply is_digit_not_nl in H.
  - vm_compute in H. intuition discriminate.
Qed.

(** A line that the pattern does not match at its start is kept. *)
Lemma embed_line_unmatched line_number line :
  re_match type_matcher line = None -> embed_line line_number line = line.
Proof. intros H. unfold embed_line. by rewrite H. Qed.

(** Line by line: the line [i] of the result is the new content the
    loop gives to the line [i] of the text. *)
Lemma embed_line_numbers_line text i line :
  split_char nl text !! i = Some line ->
  split_char nl (embed_line_numbers text) !! i = Some (embed_line i line).
Proof.
  intros H. unfold embed_line_numbers.
  destruct (split_char_lines nl text) as [Hne Hno].
  rewrite split_char_join.
  - by rewrite list_lookup_imap, H.
  - intros E. apply (f_equal length) in E. rewrite length_imap in E.
    by destruct (split_char nl text).
  - apply Forall_forall. intros l Hin.
    apply list_elem_of_lookup in Hin as [k Hk].
    rewrite list_lookup_imap in Hk.
    destruct (split_char nl text !! k) as [l0|] eqn:E0; [|done].
    injection Hk as <-. apply embed_line_no_nl.
    rewrite Forall_forall in Hno. apply Hno. by eapply list_elem_of_lookup_2.
Qed.

(** ** The claim on [embed_line_numbers] *)

(** C2 as stated fails for a type value with a character outside the
    class of the pattern, such as the dot of an absolute IRI: the line
    has the shape of a type declaration and is left as it is. So is a
    line indented with a tab. *)
Lemma embed_line_numbers_dot :
  embed_line_numbers (py "  '@type': 'http://schema.org/Person',")
  = py "  '@type': 'http://schema.org/Person',"
  /\ embed_line_numbers ("009"%char :: py "'@type': 'Person',")
     = "009"%char :: py "'@type': 'Person',".
Proof. split; vm_compute; reflexivity. Qed.

(** What follows the comma of a type declaration is lost: the line is
    rebuilt from the three groups of a match that is only anchored at
    the start of the line. *)
Lemma embed_line_numbers_drops_rest :
  embed_line_numbers (py "  '@type': 'Person', 'name': 'Ann'")
  = py "  '@type': 'Person_LINE_1',".
Proof. vm_compute. reflexivity. Qed.

(** C2, amended. For every text and every line of it, at position [i]
    from 0: a line made of blanks, the [@type] key, blanks and a quoted
    value of word characters, colons, hashes, slashes and hyphens
    followed by a comma gets the suffix for line [i + 1] appended to the
    value and is otherwise kept; a line that does not start that way is
    kept as it is. *)
Theorem embed_line_numbers_lines (text : str) (i : nat) (line : str) :
  split_char nl text !! i = Some line ->
  exists line',
    split_char nl (embed_line_numbers text) !! i = Some line'
    /\ (forall sp sp' v,
          forallb is_blank sp = true -> forallb is_blank sp' = true ->
          v <> [] -> forallb type_char v = true ->
          line = (sp ++ py "'@type':" ++ sp' ++ [dq]) ++ v ++ py "'," ->
          line' = (sp ++ py "'@type':" ++ sp' ++ [dq])
                  ++ encode v (Z.of_nat i + 1) ++ py "',")
    /\ (matches_at type_matcher line 0 = false -> line' = line).
Proof.
  intros H. exists (embed_line i line).
  split; [by apply embed_line_numbers_line|]. split.
  - intros sp sp' v Hsp Hsp' Hv Hc ->.
    pose proof (embed_line_type_declaration i sp sp' v [] Hsp Hsp' Hv Hc) as E.
    by rewrite app_nil_r in E.
  - unfold matches_at. rewrite drop_0. intros Hm. apply embed_line_unmatched.
    by destruct (re_match type_matcher line).
Qed.

Lemma embed_line_numbers_lines_witness :
  split_char nl (join nl [py "{"; py "  '@type': 'Person',"; py "}"]) !! 1
  = Some (py "  '@type': 'Person',")
  /\ split_char nl
       (embed_line_numbers (join nl [py "{"; py "  '@type': 'Person',"; py "}"]))
     !! 1 = Some (py "  '@type': 'Person_LINE_2',").
Proof.
  split; [reflexivity|].
  destruct (embed_line_numbers_lines
              (join nl [py "{"; py "  '@type': 'Person',"; py "}"]) 1
              (py "  '@type': 'Person',") ltac:(reflexivity))
    as (line' & Hl & Hshape & _).
  rewrite Hl. f_equal.
  apply (Hshape (lit "  ") (lit " ") (lit "Person"));
    [reflexivity | reflexivity | discriminate | reflexivity | reflexivity].
Defined.

(** ** The loop of [postcondition] *)

Lemma strip_reference_table subject obj (line_numbers : gmap term Z) :
  strip_reference subject obj line_numbers
  = let* (obj', t) := strip_reference subject obj empty in
    Return (obj', record subject (t !! subject) line_numbers).
Proof.
  destruct obj as [iri| |]; try reflexivity. simpl.
  destruct (extract_line_number iri) as [[stripped number]|]; [|done]. simpl.
  destruct (truthy number); simpl; [|done]. by rewrite lookup_insert_eq.
Qed.

Lemma clean_object_table {N : Normalization}
    context subject obj (line_numbers : gmap term Z) :
  clean_object context subject obj line_numbers
  = let* (obj', number) := cleaned context subject obj in
    Return (obj', record subject number line_numbers).
Proof.
  unfold cleaned, clean_object.
  assert (forall o (t : gmap term Z) n,
    (let* (obj', t') := strip_reference subject o (<[subject := n]> t) in
     Return (obj', t'))
    = let* (obj', t') := strip_reference subject o (<[subject := n]> empty) in
      Return (obj', record subject (t' !! subject) t)) as Hins.
  { intros o t n. rewrite (strip_reference_table _ _ (<[subject := n]> t)).
    rewrite (strip_reference_table _ _ (<[subject := n]> empty)).
    destruct (strip_reference subject o empty) as [[o' t']|]; [|done]. simpl.
    destruct (t' !! subject); simpl.
    - by rewrite lookup_insert_eq, insert_insert_eq.
    - by rewrite lookup_insert_eq. }
  assert (forall o (t : gmap term Z),
    strip_reference subject o t
    = let* (obj', t') := strip_reference subject o empty in
      Return (obj', record subject (t' !! subject) t)) as Hkeep.
  { intros o t. apply strip_reference_table. }
  destruct obj as [iri|id|lexical language [datatype|]];
    cbn [strip_datatype expand_prefix bind].
  - rewrite (Hkeep (URIRef iri)).
    by destruct (strip_reference _ _ empty) as [[? ?]|].
  - done.
  - destruct datatype as [|c datatype]; cbn [has_datatype].
    + cbn [expand_prefix bind]. rewrite Hkeep.
      by destruct (strip_reference _ _ empty) as [[? ?]|].
    + destruct (extract_line_number (c :: datatype)) as [[stripped number]|];
        [|done]. cbn [bind].
      destruct (truthy number) as [n|]; cbn [bind].
      * specialize (Hins (expand_prefix context
                            (Literal (normalize stripped lexical) None
                                     (Some stripped)))
                         line_numbers n).
        destruct (strip_reference _ _ (<[subject := n]> line_numbers))
          as [[? ?]|];
        destruct (strip_reference _ _ (<[subject := n]> empty)) as [[? ?]|];
          simpl in *; congruence.
      * rewrite Hkeep. by destruct (strip_reference _ _ empty) as [[? ?]|].
  - rewrite Hkeep. by destruct (strip_reference _ _ empty) as [[? ?]|].
Qed.

Lemma for_triples_app {N : Normalization}
    context l1 l2 new_graph (line_numbers : gmap term Z) :
  for_triples context (l1 ++ l2) new_graph line_numbers
  = let* (g, t) := for_triples context l1 new_graph line_numbers in
    for_triples context l2 g t.
Proof.
  revert new_graph line_numbers.
  induction l1 as [|[[s p] o] l1 IH]; intros g t; [reflexivity|].
  cbn [app for_triples].
  destruct (clean_object context s o t) as [[o' t']|]; [|done].
  cbn [bind]. apply IH.
Qed.

(** The new graph holds the cleaned triples and nothing else; the
    table entry of a node only changes at a triple that writes it. *)
Lemma for_triples_spec {N : Normalization}
    context triples g0 (t0 : gmap term Z) g t :
  for_triples context triples g0 t0 = Return (g, t) ->
  (forall x, elem_of x g <->
     elem_of x g0 \/
     exists s p o o' n, In (s, p, o) triples
       /\ cleaned context s o = Return (o', n) /\ x = (s, p, o'))
  /\ (forall node, existsb (writes context node) triples = false ->
        t !! node = t0 !! node).
Proof.
  revert g0 t0. induction triples as [|[[s p] o] triples IH]; intros g0 t0.
  - simpl. intros [= <- <-]. split; [|done]. intros x. split; [by left|].
    intros [H|(? & ? & ? & ? & ? & [] & _)]. done.
  - cbn [for_triples]. rewrite clean_object_table.
    destruct (cleaned context s o) as [[o' n]|] eqn:E; [|done]. cbn [bind].
    intros H. apply IH in H as [Hg Ht]. split.
    + intros x. rewrite Hg, elem_of_union, elem_of_singleton. split.
      * intros [[H| ->]|(s1 & p1 & o1 & o1' & n1 & Hin & Hc & ->)].
        -- by left.
        -- right. exists s, p, o, o', n. split; [by left | done].
        -- right. exists s1, p1, o1, o1', n1. split; [by right | done].
      * intros [H|(s1 & p1 & o1 & o1' & n1 & [Hin|Hin] & Hc & ->)].
        -- left. by left.
        -- injection Hin as <- <- <-. rewrite E in Hc. injection Hc as <- <-.
           left. by right.
        -- right. by exists s1, p1, o1, o1', n1.
    + intros node Hw. cbn [existsb] in Hw.
      apply orb_false_iff in Hw as [Hw1 Hw2]. rewrite (Ht node Hw2).
      unfold writes in Hw1. rewrite E in Hw1.
      destruct n as [n|]; [|done]. simpl.
      rewrite andb_true_r in Hw1. apply bool_decide_eq_false in Hw1.
      by rewrite lookup_insert_ne.
Qed.

(** [postcondition] returns as soon as every object can be cleaned. *)
Lemma for_triples_returns {N : Normalization}
    context triples g0 (t0 : gmap term Z) :
  (forall s p o, In (s, p, o) triples ->
     exists o' n, cleaned context s o = Return (o', n)) ->
  exists g t, for_triples context triples g0 t0 = Return (g, t).
Proof.
  revert g0 t0. induction triples as [|[[s p] o] triples IH]; intros g0 t0 H.
  - by exists g0, t0.
  - cbn [for_triples]. rewrite clean_object_table.
    destruct (H s p o ltac:(by left)) as (o' & n & ->). cbn [bind].
    apply IH. intros s1 p1 o1 Hin. apply (H s1 p1 o1). by right.
Qed.

(** The middle triple of a graph: its cleaned object is in the new
    graph, and its line number is in the table unless a later triple
    writes the entry of its subject. *)
Lemma postcondition_middle {N : Normalization}
    context before after s p o o' n g t :
  cleaned context s o = Return (o', n) ->
  postcondition (before ++ (s, p, o) :: after) context = Return (g, t) ->
  elem_of (s, p, o') g
  /\ (forall k, n = Some k -> existsb (writes context s) after = false ->
        t !! s = Some k).
Proof.
  intros Hc. unfold postcondition. rewrite for_triples_app.
  destruct (for_triples context before empty empty) as [[g1 t1]|]; [|done].
  cbn [bind for_triples]. rewrite clean_object_table, Hc. cbn [bind].
  intros H. apply for_triples_spec in H as [Hg Ht]. split.
  - apply Hg. left. apply elem_of_union. right. by apply elem_of_singleton.
  - intros k -> Hw. rewrite (Ht s Hw). simpl. by rewrite lookup_insert_eq.
Qed.

Lemma postcondition_returns {N : Normalization} graph context :
  (forall s p o, In (s, p, o) graph ->
     exists o' n, cleaned context s o = Return (o', n)) ->
  exists g t, postcondition graph context = Return (g, t).
Proof. apply for_triples_returns. Qed.

Lemma postcondition_member {N : Normalization} context graph s p o g t :
  In (s, p, o) graph ->
  postcondition graph context = Return (g, t) ->
  exists o' n, cleaned context s o = Return (o', n) /\ elem_of (s, p, o') g.
Proof.
  intros Hin H. apply in_split in Hin as (before & after & ->).
  pose proof H as H'. unfold postcondition in H'.
  rewrite for_triples_app in H'.
  destruct (for_triples context before empty empty) as [[g1 t1]|]; [|done].
  cbn [bind for_triples] in H'. rewrite clean_object_table in H'.
  destruct (cleaned context s o) as [[o' n]|] eqn:E; [|done].
  exists o', n. split; [done|].
  by destruct (postcondition_middle _ _ _ _ _ _ _ _ _ _ E H).
Qed.

Lemma split_once_first_colon left right :
  contains (lit ":") left = false ->
  split_once ":"%char (left ++ ":"%char :: right) = [left; right].
Proof.
  change (lit ":") with [":"%char].
  induction left as [|c left IH]; intros H; cbn [app split_once].
  - by rewrite Ascii.eqb_refl.
  - cbn [contains strip_prefix] in H.
    destruct (Ascii.eqb_spec ":"%char c) as [<-|Hc]; [done|].
    destruct (Ascii.eqb_spec c ":"%char) as [->|_]; [done|].
    by rewrite IH.
Qed.

(** ** The claims on [postcondition] *)

(** What [embed_line_numbers] writes is read back. *)
Lemma extract_line_number_encoded (v : str) (n : Z) :
  contains LINE v = false -> (0 < n)%Z ->
  extract_line_number (encode v n) = Return (v, Some n).
Proof.
  intros Hv Hn. apply contains_false in Hv. unfold encode.
  assert (str_int n = str_N (Z.to_N n)) as ->
    by (destruct n; [done | done | lia]).
  destruct (str_N_spec (Z.to_N n)) as (Hd & _ & _).
  rewrite extract_line_number_digits by done.
  rewrite int_str_N. simpl. by rewrite Z2N.id by lia.
Qed.

(** The suffix of line number 0 is outside the encoding, which counts
    the lines from 1.  The codec reads it like any other, but the loop
    tests the number for truth: the datatype keeps its suffix and
    nothing is recorded. *)
Lemma postcondition_line_zero :
  let datatype := encode (lit "T") 0 in
  let r := @postcondition normalize_integer
             [(node_s, node_p, Literal (lit "v") None (Some datatype))] empty in
  extract_line_number datatype = Return (lit "T", Some 0%Z)
  /\ triples_of r
     = Return [(node_s, node_p, Literal (lit "v") None (Some datatype))]
  /\ line_number_of r node_s = Return None.
Proof. repeat split; vm_compute; reflexivity. Qed.

(** C3 as stated fails inside the encoding: the literal is built anew
    by the library, which writes the text the way the stripped datatype
    asks for.  The text [01] of an [xsd:integer] literal comes out as
    [1]. *)
Lemma postcondition_normalises :
  let r := @postcondition normalize_integer
             [(node_s, node_p,
               Literal (lit "01") None (Some (encode xsd_integer 5)))] empty in
  triples_of r
  = Return [(node_s, node_p, Literal (lit "1") None (Some xsd_integer))]
  /\ lit "1" <> lit "01"
  /\ line_number_of r node_s = Return (Some 5%Z).
Proof.
  split; [vm_compute; reflexivity|]. split; [discriminate|].
  vm_compute; reflexivity.
Qed.

Lemma cleaned_literal_datatype {N : Normalization}
    context s lexical language datatype stripped n :
  extract_line_number datatype = Return (stripped, Some n) ->
  n <> 0%Z -> stripped <> [] ->
  cleaned context s (Literal lexical language (Some datatype))
  = Return (Literal (normalize stripped lexical) None (Some stripped), Some n).
Proof.
  intros E Hn Hs. unfold cleaned, clean_object. cbn [strip_datatype].
  destruct datatype as [|c datatype]; [by vm_compute in E|].
  cbn [has_datatype]. rewrite E. cbn [bind truthy].
  destruct (Z.eqb_spec n 0) as [|_]; [done|]. cbn [bind expand_prefix].
  destruct stripped as [|c' stripped]; [done|].
  cbn [has_datatype strip_reference bind].
  by rewrite lookup_insert_eq.
Qed.

(** C3, amended. A literal whose datatype is a datatype [v], not empty
    and without separator, followed by the separator and a line number
    from 1 on, is replaced by the literal with the datatype [v] and the
    text as the library writes it for [v], and the line number is
    recorded for the subject; the table keeps the number of the last
    triple that wrote the entry of that subject. *)
Theorem postcondition_literal_datatype {N : Normalization}
    (context : gmap str str) (before after : list triple)
    (s p : term) (lexical : str) (language : option str)
    (v : str) (line_number : Z)
    (g : gset triple) (t : gmap term Z) :
  v <> [] -> contains LINE v = false -> (0 < line_number)%Z ->
  postcondition
    (before
     ++ (s, p, Literal lexical language (Some (encode v line_number)))
     :: after)
    context = Return (g, t) ->
  elem_of (s, p, Literal (normalize v lexical) None (Some v)) g
  /\ (existsb (writes context s) after = false ->
      t !! s = Some line_number).
Proof.
  intros Hs Hv Hn H.
  pose proof (extract_line_number_encoded v line_number Hv Hn) as E.
  pose proof (cleaned_literal_datatype context s lexical language _ _ _ E
                ltac:(lia) Hs) as Hc.
  destruct (postcondition_middle _ _ _ _ _ _ _ _ _ _ Hc H) as [Hg Ht].
  split; [done|]. intros Hw. by apply Ht.
Qed.

Lemma postcondition_literal_datatype_witness :
  exists g t,
    @postcondition normalize_integer
      [(node_s, node_p, Literal (lit "v") None (Some (lit "T_LINE_3")));
       (node_s, node_q,
        Literal (lit "01") None (Some (encode xsd_integer 8)))]
      empty = Return (g, t)
    /\ elem_of (node_s, node_q, Literal (lit "1") None (Some xsd_integer)) g
    /\ t !! node_s = Some 8%Z.
Proof.
  destruct (@postcondition_returns normalize_integer
      [(node_s, node_p, Literal (lit "v") None (Some (lit "T_LINE_3")));
       (node_s, node_q,
        Literal (lit "01") None (Some (encode xsd_integer 8)))]
      empty) as (g & t & E).
  { intros s p o [[= <- <- <-]|[[= <- <- <-]|[]]];
      eexists _, _; vm_compute; reflexivity. }
  exists g, t. split; [exact E|].
  destruct (@postcondition_literal_datatype normalize_integer empty
              [(node_s, node_p, Literal (lit "v") None (Some (lit "T_LINE_3")))]
              [] node_s node_q (lit "01") None xsd_integer 8 g t)
    as [Hg Ht]; [discriminate | reflexivity | lia | exact E |].
  split; [exact Hg | apply Ht; reflexivity].
Defined.

(** C8 as stated fails when the expanded text carries a line-number
    suffix: the reference just created goes through the third step of
    the loop, which strips the suffix and records the number. *)
Lemma postcondition_expands_then_strips :
  let r := @postcondition normalize_integer
             [(node_s, node_p, Literal (lit "foo:bar_LINE_5") None None)]
             {[ lit "foo" := lit "http://example.org/" ]} in
  triples_of r = Return [(node_s, node_p, URIRef (lit "http://example.org/bar"))]
  /\ lit "http://example.org/" ++ lit "bar_LINE_5" <> lit "http://example.org/bar"
  /\ line_number_of r node_s = Return (Some 5%Z).
Proof.
  split; [vm_compute; reflexivity|]. split; [discriminate|].
  vm_compute; reflexivity.
Qed.

(** The example of the specification. *)
Example postcondition_foo_bar :
  triples_of
    (@postcondition normalize_integer
       [(node_s, node_p, Literal (lit "foo:bar") None None)]
       {[ lit "foo" := lit "http://example.org/" ]})
  = Return [(node_s, node_p, URIRef (lit "http://example.org/bar"))].
Proof. vm_compute. reflexivity. Qed.

Lemma cleaned_literal_prefix {N : Normalization}
    context s value language datatype left right expansion :
  has_datatype datatype = false ->
  value = left ++ ":"%char :: right ->
  contains (lit ":") left = false ->
  context !! left = Some expansion ->
  cleaned context s (Literal value language datatype)
  = let* (stripped, number) := extract_line_number (expansion ++ right) in
    Return (URIRef (match truthy number with
                    | Some _ => stripped
                    | None => expansion ++ right
                    end), truthy number).
Proof.
  intros Hd -> Hl Hc. unfold cleaned, clean_object.
  assert (strip_datatype s (Literal (left ++ ":"%char :: right) language datatype)
            empty
          = Return (Literal (left ++ ":"%char :: right) language datatype, empty))
    as ->.
  { destruct datatype as [[|c d]|]; done. }
  cbn [bind expand_prefix]. rewrite Hd, split_once_first_colon, Hc by done.
  cbn [strip_reference].
  destruct (extract_line_number (expansion ++ right)) as [[stripped number]|];
    [|done]. cbn [bind].
  destruct (truthy number) as [n|]; cbn [bind]; [|done].
  by rewrite lookup_insert_eq.
Qed.

(** C8, amended. A literal without datatype whose text is [left:right],
    cut at its first colon, with [left] a key of the context, is
    replaced by a reference.  When the expansion of [left] followed by
    [right] has no separator, that text is the text of the reference,
    and the triple records nothing.  When it is a text [v] without
    separator followed by the separator and a line number from 1 on,
    the text of the reference is [v], and the line number is recorded
    for the subject, to stay unless a later triple writes that entry. *)
Theorem postcondition_expands_prefix {N : Normalization}
    (context : gmap str str) (before after : list triple)
    (s p : term) (value : str) (language datatype : option str)
    (left right expansion : str) (g : gset triple) (t : gmap term Z) :
  has_datatype datatype = false ->
  value = left ++ ":"%char :: right ->
  contains (lit ":") left = false ->
  context !! left = Some expansion ->
  postcondition (before ++ (s, p, Literal value language datatype) :: after)
                context = Return (g, t) ->
  (exists iri, elem_of (s, p, URIRef iri) g)
  /\ (contains LINE (expansion ++ right) = false ->
      elem_of (s, p, URIRef (expansion ++ right)) g
      /\ writes context s (s, p, Literal value language datatype) = false)
  /\ (forall (v : str) (line_number : Z),
        expansion ++ right = encode v line_number ->
        contains LINE v = false -> (0 < line_number)%Z ->
        elem_of (s, p, URIRef v) g
        /\ (existsb (writes context s) after = false ->
            t !! s = Some line_number)).
Proof.
  intros Hd Hv Hl Hc H.
  pose proof (cleaned_literal_prefix context s _ language _ _ _ _ Hd Hv Hl Hc)
    as E.
  split; [|split].
  - destruct (postcondition_member context _ s p _ g t
                ltac:(apply in_elt) H) as (o' & n & E' & Hin).
    rewrite E in E'.
    destruct (extract_line_number (expansion ++ right))
      as [[stripped number]|]; [|done].
    cbn [bind] in E'. injection E' as <- <-. by eexists.
  - intros Hno. apply contains_false in Hno.
    rewrite extract_line_number_absent in E by done. cbn [bind truthy] in E.
    destruct (postcondition_middle _ _ _ _ _ _ _ _ _ _ E H) as [Hg _].
    split; [exact Hg|]. unfold writes. rewrite E. apply andb_false_r.
  - intros v line_number Hx Hno Hn.
    rewrite Hx, (extract_line_number_encoded v line_number Hno Hn) in E.
    cbn [bind truthy] in E.
    destruct (Z.eqb_spec line_number 0) as [|_]; [lia|].
    destruct (postcondition_middle _ _ _ _ _ _ _ _ _ _ E H) as [Hg Ht].
    split; [exact Hg|]. intros Hw. by apply Ht.
Qed.

Lemma postcondition_expands_prefix_witness :
  exists g t,
    @postcondition normalize_integer
      [(node_s, node_p, Literal (lit "foo:bar_LINE_5") None None)]
      {[ lit "foo" := lit "http://example.org/" ]} = Return (g, t)
    /\ elem_of (node_s, node_p, URIRef (lit "http://example.org/bar")) g
    /\ t !! node_s = Some 5%Z.
Proof.
  destruct (@postcondition_returns normalize_integer
      [(node_s, node_p, Literal (lit "foo:bar_LINE_5") None None)]
      {[ lit "foo" := lit "http://example.org/" ]}) as (g & t & E).
  { intros s p o [[= <- <- <-]|[]]. eexists _, _. vm_compute. reflexivity. }
  exists g, t. split; [exact E|].
  destruct (@postcondition_expands_prefix normalize_integer
              {[ lit "foo" := lit "http://example.org/" ]} [] []
              node_s node_p (lit "foo:bar_LINE_5") None None
              (lit "foo") (lit "bar_LINE_5") (lit "http://example.org/") g t)
    as (_ & _ & Hline);
    [reflexivity | reflexivity | reflexivity | vm_compute; reflexivity
     | exact E |].
  destruct (Hline (lit "http://example.org/bar") 5%Z)
    as [Hg Ht]; [reflexivity | reflexivity | lia |].
  split; [exact Hg | apply Ht; reflexivity].
Defined.

(** C9. Every triple of the new graph is an input triple with its
    object cleaned, subject and predicate as they were; every input
    triple has its cleaned triple in the new graph; a triple whose
    object is a blank node is in the new graph as it is. *)
Theorem postcondition_frame {N : Normalization}
    (graph : list triple) (context : gmap str str)
    (g : gset triple) (t : gmap term Z) :
  postcondition graph context = Return (g, t) ->
  (forall x, elem_of x g ->
     exists s p o o' n,
       In (s, p, o) graph /\ cleaned context s o = Return (o', n)
       /\ x = (s, p, o'))
  /\ (forall s p o, In (s, p, o) graph ->
        exists o' n, cleaned context s o = Return (o', n)
                     /\ elem_of (s, p, o') g)
  /\ (forall s p id, In (s, p, BNode id) graph ->
        elem_of (s, p, BNode id) g).
Proof.
  intros H. split; [|split].
  - intros x Hx. apply for_triples_spec in H as [Hg _].
    apply Hg in Hx as [Hx|Hx]; [|done]. by apply not_elem_of_empty in Hx.
  - intros s p o Hin. by apply (postcondition_member context graph s p o g t).
  - intros s p id Hin.
    destruct (postcondition_member context graph s p _ g t Hin H)
      as (o' & n & E & Hg).
    vm_compute in E. by injection E as <- <-.
Qed.

Lemma postcondition_frame_witness :
  exists g t,
    @postcondition normalize_integer
      [(node_s, node_p, BNode (lit "b0"));
       (BNode (lit "b0"), node_q, URIRef (lit "Person_LINE_5"))]
      empty = Return (g, t)
    /\ elem_of (node_s, node_p, BNode (lit "b0")) g.
Proof.
  destruct (@postcondition_returns normalize_integer
      [(node_s, node_p, BNode (lit "b0"));
       (BNode (lit "b0"), node_q, URIRef (lit "Person_LINE_5"))]
      empty) as (g & t & E).
  { intros s p o [[= <- <- <-]|[[= <- <- <-]|[]]];
      eexists _, _; vm_compute; reflexivity. }
  exists g, t. split; [exact E|].
  apply (@postcondition_frame normalize_integer _ _ g t E). by left.
Defined.

(** * Further properties *)

(** ** Cutting a text at its separators *)

Lemma split_from_not_nil sep skip cur s : split_from sep skip cur s <> [].
Proof.
  revert skip cur. induction s as [|c s IH]; intros skip cur; simpl; [done|].
  destruct skip; [|apply IH].
  destruct (strip_prefix sep (c :: s)); [done | apply IH].
Qed.

(** The parts joined by the separator give the text back. *)
Lemma split_from_join sep skip cur s :
  sep <> [] -> skip <= length s ->
  join_str sep (split_from sep skip cur s) = rev cur ++ drop skip s.
Proof.
  intros Hsep. revert skip cur.
  induction s as [|c s IH]; intros skip cur Hs; simpl in Hs.
  - assert (skip = 0) as -> by lia. simpl. by rewrite app_nil_r.
  - destruct skip as [|k]; cbn [split_from drop].
    + destruct (strip_prefix sep (c :: s)) as [r|] eqn:E.
      * apply strip_prefix_Some in E.
        destruct sep as [|x sep]; [done|]. simpl in E. injection E as -> ->.
        pose proof (split_from_not_nil (x :: sep) (length (x :: sep) - 1) []
                      (sep ++ r)) as Hne.
        assert (join_str (x :: sep)
                  (split_from (x :: sep) (length (x :: sep) - 1) [] (sep ++ r))
                = r) as Hj.
        { rewrite IH by (rewrite length_app; simpl; lia). simpl.
          rewrite Nat.sub_0_r. by rewrite drop_app_length. }
        destruct (split_from (x :: sep) (length (x :: sep) - 1) [] (sep ++ r))
          as [|p ps] eqn:Ep; [done|].
        change (join_str (x :: sep) (rev cur :: p :: ps))
          with (rev cur ++ (x :: sep) ++ join_str (x :: sep) (p :: ps)).
        by rewrite Hj.
      * rewrite IH by lia. simpl. by rewrite <- app_assoc.
    + apply IH. lia.
Qed.

(** No part holds the separator. *)
Lemma split_from_parts sep skip cur s :
  sep <> [] -> skip <= length s ->
  (forall a b r, rev cur = a ++ b -> b <> [] -> b ++ drop skip s <> sep ++ r) ->
  Forall (fun p => ~ occurs sep p) (split_from sep skip cur s).
Proof.
  intros Hsep. revert skip cur.
  induction s as [|c s IH]; intros skip cur Hs Hinv; simpl in Hs.
  - assert (skip = 0) as -> by lia. simpl. constructor; [|constructor].
    intros (a & r & E). apply (Hinv a (sep ++ r) r E).
    + by destruct sep.
    + simpl. by rewrite app_nil_r.
  - destruct skip as [|k]; cbn [split_from].
    + destruct (strip_prefix sep (c :: s)) as [r0|] eqn:E.
      * constructor.
        -- intros (a & r & Ec). apply (Hinv a (sep ++ r) (r ++ c :: s) Ec).
           ++ by destruct sep.
           ++ simpl. by rewrite <- !app_assoc.
        -- apply strip_prefix_Some in E. apply IH.
           ++ apply (f_equal length) in E. rewrite length_app in E.
              simpl in E. destruct sep; [done | simpl in *; lia].
           ++ intros a b r Hab Hb. by destruct a, b.
      * apply IH; [lia|]. intros a b r Hab Hb. simpl in Hab.
        destruct (decide (b = [c])) as [->|Hbc].
        -- simpl. intros Er. by apply (strip_prefix_None _ _ E r).
        -- assert (exists b', b = b' ++ [c] /\ b' <> [] /\ rev cur = a ++ b')
             as (b' & -> & Hb' & Hc).
           { destruct (exists_last Hb) as (b' & x & ->).
             rewrite app_assoc in Hab. apply app_inj_tail in Hab as [Hab <-].
             exists b'. split; [done|]. split; [|done]. by intros ->. }
           rewrite <- app_assoc. simpl. by apply (Hinv a b' r).
    + apply IH; [lia|]. exact Hinv.
Qed.

Lemma split_from_two sep cur s :
  sep <> [] -> occurs sep s -> 2 <= length (split_from sep 0 cur s).
Proof.
  intros Hsep. revert cur. induction s as [|c s IH]; intros cur (a & b & E).
  - destruct a, sep; done.
  - cbn [split_from]. destruct (strip_prefix sep (c :: s)) as [r|] eqn:Ep.
    + pose proof (split_from_not_nil sep (length sep - 1) [] s).
      destruct (split_from sep (length sep - 1) [] s); [done | simpl; lia].
    + apply IH. destruct a as [|x a].
      * by destruct (strip_prefix_None _ _ Ep b).
      * injection E as _ ->. by exists a, b.
Qed.

Lemma join_str_snoc sep l p :
  l <> [] -> join_str sep (l ++ [p]) = join_str sep l ++ sep ++ p.
Proof.
  induction l as [|x l IH]; intros Hl; [done|].
  destruct l as [|y l]; [done|].
  change (join_str sep ((x :: y :: l) ++ [p]))
    with (x ++ sep ++ join_str sep ((y :: l) ++ [p])).
  rewrite IH by done. simpl. by rewrite <- !app_assoc.
Qed.

Lemma rev_join_str sep parts :
  rev (join_str sep parts) = join_str (rev sep) (rev (map (@rev ascii) parts)).
Proof.
  induction parts as [|p ps IH]; [done|].
  destruct ps as [|q ps]; [done|].
  change (join_str sep (p :: q :: ps)) with (p ++ sep ++ join_str sep (q :: ps)).
  rewrite !rev_app_distr, IH.
  change (rev (map (rev (A:=ascii)) (p :: q :: ps)))
    with (rev (map (rev (A:=ascii)) (q :: ps)) ++ [rev p]).
  rewrite join_str_snoc; [by rewrite <- app_assoc|].
  simpl. by destruct (rev (map (rev (A:=ascii)) ps)).
Qed.

(** What [rsplit] returns: parts without separator that, joined by the
    separator, are the text; one part exactly when the text has no
    separator. *)
Lemma rsplit_spec sep s :
  sep <> [] ->
  rsplit sep s <> []
  /\ join_str sep (rsplit sep s) = s
  /\ Forall (fun p => ~ occurs sep p) (rsplit sep s)
  /\ (occurs sep s -> 2 <= length (rsplit sep s)).
Proof.
  intros Hsep. unfold rsplit, split.
  assert (rev sep <> []) as Hrev.
  { intros E. apply (f_equal (@rev ascii)) in E.
    by rewrite rev_involutive in E. }
  split; [|split; [|split]].
  - intros E. apply (f_equal length) in E.
    rewrite length_rev, length_map in E.
    pose proof (split_from_not_nil (rev sep) 0 [] (rev s)).
    by destruct (split_from (rev sep) 0 [] (rev s)).
  - rewrite <- (rev_involutive sep) at 1.
    rewrite <- rev_join_str, split_from_join by (done || lia).
    rewrite drop_0. change (rev [] ++ rev s) with (rev s). apply rev_involutive.
  - apply Forall_rev, Forall_forall. intros p Hp.
    apply list_elem_of_In, in_map_iff in Hp as (q & <- & Hq).
    pose proof (split_from_parts (rev sep) 0 [] (rev s) Hrev ltac:(lia)) as Hf.
    rewrite Forall_forall in Hf. intros Ho. apply occurs_rev in Ho.
    rewrite rev_involutive in Ho.
    apply (Hf ltac:(intros a b r Hab Hb; by destruct a, b) q); [|done].
    by apply list_elem_of_In.
  - intros Ho. rewrite length_rev, length_map.
    apply split_from_two; [done|]. by apply occurs_rev.
Qed.

(** ** More on [extract_line_number] *)

Lemma int_raises s e : int s = Raise e -> e = ValueError.
Proof.
  unfold int. destruct (strip int_space s) as [|c t]; [by intros [= <-]|].
  destruct (Ascii.eqb c "-"%char); [|destruct (Ascii.eqb c "+"%char)];
    destruct (int_digits 0 _); by intros [= <-].
Qed.

Lemma LINE_not_nil : LINE <> [].
Proof. done. Qed.

(** X1. No line number is returned exactly for the texts without
    separator, and then the text is returned as it is. *)
Theorem extract_line_number_none (text s : str) :
  extract_line_number text = Return (s, None)
  <-> s = text /\ contains LINE text = false.
Proof.
  split.
  - unfold extract_line_number.
    destruct (rsplit_spec LINE text LINE_not_nil) as (_ & _ & _ & Htwo).
    destruct (Nat.eqb_spec (length (rsplit LINE text)) 1) as [Hone|_].
    + intros [= <-]. split; [done|]. apply contains_false. intros Ho.
      apply Htwo in Ho. lia.
    + destruct (rsplit LINE text) as [|p0 [|p1 ps]]; [done | done |].
      by destruct (int p1).
  - intros [-> H]. apply extract_line_number_absent. by apply contains_false.
Qed.

(** X2. One separator behind a text without separator: the text is
    returned with the integer that follows, and a suffix that is no
    integer raises [ValueError]. *)
Theorem extract_line_number_one_suffix (v d : str) :
  contains LINE v = false ->
  forallb (fun c => negb (Ascii.eqb c "_"%char)) d = true ->
  extract_line_number (v ++ LINE ++ d)
  = match int d with
    | Return number => Return (v, Some number)
    | Raise e => Raise ValueError
    end.
Proof.
  intros Hv Hd. apply contains_false in Hv. unfold extract_line_number.
  change LINE with (lit "_LINE" ++ ["_"%char]) in *.
  rewrite rsplit_suffix; [|done|].
  - simpl. destruct (int d) as [n|e] eqn:E; [done|].
    by rewrite (int_raises _ _ E).
  - apply Forall_forall. intros c Hc. rewrite forallb_forall in Hd.
    apply list_elem_of_In, Hd in Hc. by destruct (Ascii.eqb_spec c "_"%char).
Qed.

Lemma extract_line_number_one_suffix_witness :
  contains LINE (lit "Person") = false
  /\ forallb (fun c => negb (Ascii.eqb c "_"%char)) (lit "5a") = true
  /\ extract_line_number (lit "Person" ++ LINE ++ lit "5a") = Raise ValueError.
Proof.
  split; [reflexivity|]. split; [reflexivity|].
  apply (extract_line_number_one_suffix (lit "Person") (lit "5a"));
    reflexivity.
Defined.

(** X3. A text returned with a line number stands in front of a
    separator of the given text and holds no separator itself: decoded
    again, it comes back unchanged and without number. *)
Theorem extract_line_number_stripped (text s : str) (number : Z) :
  extract_line_number text = Return (s, Some number) ->
  contains LINE s = false
  /\ (exists rest, text = s ++ LINE ++ rest)
  /\ extract_line_number s = Return (s, None).
Proof.
  unfold extract_line_number at 1.
  destruct (rsplit_spec LINE text LINE_not_nil) as (_ & Hjoin & Hparts & _).
  destruct (length (rsplit LINE text) =? 1); [done|].
  destruct (rsplit LINE text) as [|p0 [|p1 ps]]; [done | done |].
  destruct (int p1) as [n|]; [|done]. intros [= <- <-].
  inversion Hparts as [|? ? Hp0 _]; subst.
  split; [by apply contains_false|]. split.
  - by exists (join_str LINE (p1 :: ps)).
  - by apply extract_line_number_absent.
Qed.

Lemma extract_line_number_stripped_witness :
  extract_line_number (lit "a_LINE_1_LINE_2") = Return (lit "a", Some 1%Z)
  /\ extract_line_number (lit "a") = Return (lit "a", None).
Proof.
  split; [reflexivity|].
  apply (extract_line_number_stripped (lit "a_LINE_1_LINE_2") (lit "a") 1).
  reflexivity.
Defined.

(** X4. [extract_line_number] raises nothing but the [ValueError] of
    [int], and only on a text that holds a separator. *)
Theorem extract_line_number_raises (text : str) (e : exn) :
  extract_line_number text = Raise e ->
  e = ValueError /\ contains LINE text = true.
Proof.
  intros H. split.
  - unfold extract_line_number in H.
    destruct (rsplit_spec LINE text LINE_not_nil) as (Hne & _).
    destruct (Nat.eqb_spec (length (rsplit LINE text)) 1) as [|Hone]; [done|].
    destruct (rsplit LINE text) as [|p0 [|p1 ps]]; [done | done |].
    destruct (int p1) as [n|e'] eqn:E; [done|].
    injection H as <-. by apply int_raises in E.
  - destruct (contains LINE text) eqn:E; [done|].
    apply contains_false in E. by rewrite extract_line_number_absent in H.
Qed.

Lemma extract_line_number_raises_witness :
  extract_line_number (lit "T_LINE_x") = Raise ValueError
  /\ contains LINE (lit "T_LINE_x") = true.
Proof.
  split; [reflexivity|].
  apply (extract_line_number_raises (lit "T_LINE_x") ValueError). reflexivity.
Defined.

(** ** More on [PrefixGenerator] *)

Lemma fold_digits_acc base digits a :
  fold_left (fun a d => a * base + d) digits a
  = a * base ^ length digits + number_of base digits.
Proof.
  unfold number_of. revert a. induction digits as [|d digits IH]; intros a.
  - simpl. lia.
  - cbn [fold_left length]. rewrite IH, (IH (0 * base + d)).
    rewrite Nat.pow_succ_r'. lia.
Qed.

Lemma number_of_zeros (base k : nat) (digits : list nat) :
  number_of base (replicate k 0 ++ digits) = number_of base digits.
Proof.
  unfold number_of. induction k as [|k IH]; [done|]. simpl. exact IH.
Qed.

(** The loop writes [count] in base [alen], from the right, in front of
    the digits [tail] that are already there. *)
Lemma digits_loop_value alen position count tail :
  count < alen ^ position ->
  exists digits,
    digits_loop alen position count (replicate position 0 ++ tail) = Some digits
    /\ length digits = position + length tail
    /\ number_of alen digits
       = count * alen ^ length tail + number_of alen tail.
Proof.
  revert count tail. induction position as [|p IH]; intros count tail Hc.
  - simpl in Hc. assert (count = 0) as -> by lia. exists tail. by simpl.
  - cbn [digits_loop]. destruct (Nat.eqb_spec count 0) as [->|Hnz].
    { exists (replicate (S p) 0 ++ tail).
      rewrite number_of_zeros, length_app, length_replicate. by simpl. }
    destruct (Nat.eqb_spec alen 0) as [->|Ha].
    { rewrite Nat.pow_0_l in Hc by done. lia. }
    assert (<[p := count mod alen]> (replicate (S p) 0 ++ tail)
            = replicate p 0 ++ (count mod alen) :: tail) as ->.
    { rewrite replicate_S_end, <- app_assoc.
      rewrite insert_app_r_alt by (rewrite length_replicate; lia).
      by rewrite length_replicate, Nat.sub_diag. }
    destruct (IH (count / alen) ((count mod alen) :: tail)) as (ds & -> & Hl & Hv).
    { apply Nat.Div0.div_lt_upper_bound. rewrite Nat.pow_succ_r' in Hc. lia. }
    exists ds. split; [done|]. split; [simpl in Hl; lia|].
    assert (number_of alen (count mod alen :: tail)
            = count mod alen * alen ^ length tail + number_of alen tail) as Hd.
    { unfold number_of at 1. cbn [fold_left]. by rewrite fold_digits_acc. }
    rewrite Hv, Hd. cbn [length]. rewrite Nat.pow_succ_r'.
    pose proof (Nat.div_mod_eq count alen). nia.
Qed.

(** X5. The generator yields [len(alphabet) ** prefix_length] strings,
    each of [prefix_length] characters of the alphabet. *)
Theorem iter_shape (prefix_length : nat) (alphabet : str) :
  length (iter (PrefixGenerator_init prefix_length alphabet))
  = length alphabet ^ prefix_length
  /\ Forall (fun candidate =>
               exists prefix, candidate = Some prefix
                 /\ length prefix = prefix_length
                 /\ Forall (fun c => In c alphabet) prefix)
            (iter (PrefixGenerator_init prefix_length alphabet)).
Proof.
  unfold iter. cbn [max_count PrefixGenerator_init]. split.
  - by rewrite length_map, length_seq.
  - apply Forall_forall. intros o Ho.
    apply list_elem_of_In, in_map_iff in Ho as (k & <- & Hk).
    apply in_seq in Hk.
    destruct (yield_total prefix_length alphabet k) as [p Hp]; [lia|].
    exists p. split; [done|]. by apply yield_shape in Hp.
Qed.

(** The string yielded for [count] and its digits. *)
Lemma yield_digits (prefix_length : nat) (alphabet : str) (count : nat) :
  count < length alphabet ^ prefix_length ->
  exists digits prefix,
    yield (PrefixGenerator_init prefix_length alphabet) count = Some prefix
    /\ Forall2 (fun d c => alphabet !! d = Some c) digits prefix
    /\ length digits = prefix_length
    /\ number_of (length alphabet) digits = count.
Proof.
  intros Hc.
  destruct (yield_total prefix_length alphabet count Hc) as [p Hp].
  destruct (digits_loop_value (length alphabet) prefix_length count [] Hc)
    as (ds & Hds & Hl & Hv).
  rewrite app_nil_r in Hds. unfold yield in Hp. simpl in Hp. rewrite Hds in Hp.
  exists ds, p. split.
  - unfold yield. simpl. by rewrite Hds.
  - split; [by apply mapM_Some|]. cbn [length] in Hl, Hv.
    change (number_of (length alphabet) []) with 0 in Hv.
    rewrite Nat.pow_0_r in Hv. split; lia.
Qed.

(** X6. The generator counts: the string yielded for [count] spells, with
    the characters of the alphabet as digits, the number [count] in base
    [len(alphabet)], most significant digit first. *)
Theorem yield_counts (prefix_length : nat) (alphabet : str) (count : nat) :
  count < length alphabet ^ prefix_length ->
  exists digits prefix,
    yield (PrefixGenerator_init prefix_length alphabet) count = Some prefix
    /\ Forall2 (fun d c => alphabet !! d = Some c) digits prefix
    /\ length digits = prefix_length
    /\ number_of (length alphabet) digits = count.
Proof. apply yield_digits. Qed.

Lemma yield_counts_witness :
  5 < length (lit "abc") ^ 2
  /\ exists digits prefix,
       yield (PrefixGenerator_init 2 (lit "abc")) 5 = Some prefix
       /\ Forall2 (fun d c => lit "abc" !! d = Some c) digits prefix
       /\ length digits = 2
       /\ number_of (length (lit "abc")) digits = 5.
Proof.
  split; [simpl; lia|]. apply (yield_counts 2 (lit "abc") 5). simpl. lia.
Defined.

(** X7. Over an alphabet without repeated character the generator
    yields no string twice. *)
Theorem yield_injective (prefix_length : nat) (alphabet : str) (i j : nat) :
  NoDup alphabet ->
  i < length alphabet ^ prefix_length -> j < length alphabet ^ prefix_length ->
  yield (PrefixGenerator_init prefix_length alphabet) i
  = yield (PrefixGenerator_init prefix_length alphabet) j ->
  i = j.
Proof.
  intros Hnd Hi Hj E.
  destruct (yield_digits prefix_length alphabet i Hi)
    as (di & p & Hp & Hdi & _ & <-).
  destruct (yield_digits prefix_length alphabet j Hj)
    as (dj & q & Hq & Hdj & _ & <-).
  rewrite Hp, Hq in E. injection E as <-. f_equal.
  clear Hp Hq Hi Hj. revert dj Hdj.
  induction Hdi as [|d c di p Hd _ IH]; intros dj Hdj.
  - by inversion Hdj.
  - inversion Hdj as [|d' ? dj' ? Hd' Hdj']; subst. f_equal.
    + by eapply NoDup_lookup.
    + by apply IH.
Qed.

Lemma yield_injective_witness :
  NoDup (lit "ab") /\ 1 < length (lit "ab") ^ 2 /\ 2 < length (lit "ab") ^ 2
  /\ yield (PrefixGenerator_init 2 (lit "ab")) 1
     <> yield (PrefixGenerator_init 2 (lit "ab")) 2.
Proof.
  assert (NoDup (lit "ab")) as Hnd.
  { apply NoDup_cons. split; [|apply NoDup_singleton].
    intros H. apply list_elem_of_singleton in H. discriminate H. }
  split; [exact Hnd|]. split; [simpl; lia|]. split; [simpl; lia|].
  intros E.
  pose proof (yield_injective 2 (lit "ab") 1 2 Hnd ltac:(simpl; lia)
                ltac:(simpl; lia) E) as H.
  discriminate H.
Defined.

(** ** More on [autogenerate_empty_prefix] *)

(** A match reported by the scan is a match of the pattern somewhere in
    the text. *)
Lemma scan_hit_sound r skip s g :
  In (Hit g) (scan r skip s) ->
  exists a b rest, s = a ++ b /\ re_match r b = Some (g, rest).
Proof.
  revert skip. induction s as [|c s IH]; intros skip; simpl; [done|].
  assert (forall k, In (Hit g) (scan r k s) ->
            exists a b rest, c :: s = a ++ b /\ re_match r b = Some (g, rest))
    as Htail.
  { intros k Hk. apply IH in Hk as (a & b & rest & -> & E).
    by exists (c :: a), b, rest. }
  destruct skip as [|k]; [|apply Htail].
  destruct (re_match r (c :: s)) as [[g' rest']|] eqn:E.
  - intros [[= <-]|H]; [by exists [], (c :: s), rest' | by eapply Htail].
  - intros [[=]|H]. by eapply Htail.
Qed.

Lemma findall_match_string_sound n u text :
  elem_of u (findall (match_string n) text) ->
  length u = n /\ forallb is_word u = true /\ occurs (u ++ lit ":") text.
Proof.
  unfold findall. intros H.
  apply list_elem_of_In, in_map_iff in H as (g & <- & Hg).
  assert (In (Hit g) (scan (match_string n) 0 text)) as Hin.
  { unfold hits in Hg. apply list_elem_of_In, list_elem_of_omap in Hg
      as ([c|g'] & Hpc & E); [done|]. injection E as ->.
    by apply list_elem_of_In. }
  apply scan_hit_sound in Hin as (a & b & rest & -> & E).
  apply re_match_Some in E as (w & -> & M).
  apply match_string_shape in M as (u & -> & -> & Hl & Hw).
  change (group 1 [u]) with u.
  split; [done|]. split; [done|]. by exists a, rest.
Qed.

(** X8. The strings the function takes as used are the runs of
    [prefix_length] word characters that a colon follows somewhere in
    the text. *)
Theorem non_candidate_prefix_strings_spec
    (text : str) (prefix_length : nat) (u : str) :
  elem_of u (findall (match_string prefix_length) text)
  <-> length u = prefix_length /\ forallb is_word u = true
      /\ contains (u ++ lit ":") text = true.
Proof.
  rewrite contains_occurs. split.
  - apply findall_match_string_sound.
  - intros (Hl & Hw & Ho). by apply findall_match_string.
Qed.



(** X10. With an empty alphabet the function always raises: the
    exhaustion error when nothing is used in the text, and otherwise the
    exception of its last line. *)
Theorem autogenerate_empty_prefix_empty_alphabet
    (text : str) (prefix_length : nat) :
  autogenerate_empty_prefix text prefix_length []
  = Raise (match findall (match_string prefix_length) text with
           | [] => could_not_find
           | _ :: _ => cannot_happen
           end).
Proof.
  unfold autogenerate_empty_prefix.
  destruct (findall (match_string prefix_length) text) as [|u l] eqn:E.
  - reflexivity.
  - assert (size (list_to_set (u :: l) : gset str) <> 0) as Hs.
    { intros Hz. apply size_empty_inv in Hz.
      assert (elem_of u (list_to_set (u :: l) : gset str)) as Hu
        by (apply elem_of_list_to_set; left).
      apply Hz in Hu. by apply elem_of_empty in Hu. }
    destruct (Nat.eqb_spec (size (list_to_set (u :: l) : gset str))
                (length (@nil ascii))) as [Hz|_]; [done|].
    cbn [max_count PrefixGenerator_init length].
    destruct prefix_length as [|n]; [|reflexivity].
    assert (u = []) as ->.
    { assert (elem_of u (findall (match_string 0) text)) as Hu
        by (rewrite E; left).
      apply findall_match_string_sound in Hu as [Hl _]. by destruct u. }
    change (0 ^ 0) with 1. cbn [for_prefix].
    assert (yield (PrefixGenerator_init 0 []) 0 = Some []) as -> by reflexivity.
    destruct (decide _) as [|Hn]; [done|].
    destruct Hn. apply elem_of_list_to_set. left.
Qed.

Lemma autogenerate_no_colon
    (text : str) (n : nat) (a : ascii) (letters : str) :
  contains (lit ":") text = false ->
  autogenerate_empty_prefix text n (a :: letters) = Return (replicate n a).
Proof.
  intros Hno. apply contains_false in Hno. unfold autogenerate_empty_prefix.
  assert (findall (match_string n) text = []) as ->.
  { destruct (findall (match_string n) text) as [|u l] eqn:E; [done|].
    assert (elem_of u (findall (match_string n) text)) as Hu
      by (rewrite E; left).
    apply findall_match_string_sound in Hu as (_ & _ & (x & y & ->)).
    destruct Hno. exists (x ++ u), y. by rewrite <- !app_assoc. }
  change (size (list_to_set [] : gset str)) with (size (empty : gset str)).
  rewrite size_empty. cbn [length Nat.eqb max_count PrefixGenerator_init].
  destruct (S (length letters) ^ n) as [|m] eqn:Em.
  { by apply Nat.pow_nonzero in Em. }
  cbn [for_prefix]. unfold yield.
  cbn [alphabet_length prefix_length alphabet PrefixGenerator_init].
  assert (digits_loop (length (a :: letters)) n 0 (replicate n 0)
          = Some (replicate n 0)) as -> by (by destruct n).
  assert (mapM (fun c => (a :: letters) !! c) (replicate n 0)
          = Some (replicate n a)) as ->.
  { apply mapM_Some. clear Em. induction n; constructor; done. }
  destruct (decide _) as [Hin|]; [|done].
  apply elem_of_list_to_set in Hin. by apply elem_of_nil in Hin.
Qed.

(** X11. On a text without colon nothing is used, and the prefix is the
    first character of the alphabet, [prefix_length] times. *)
Theorem autogenerate_empty_prefix_no_colon
    (text : str) (n : nat) (a : ascii) (letters : str) :
  contains (lit ":") text = false ->
  autogenerate_empty_prefix text n (a :: letters) = Return (replicate n a).
Proof. apply autogenerate_no_colon. Qed.

Lemma autogenerate_empty_prefix_no_colon_witness :
  contains (lit ":") (lit "{ no declaration }") = false
  /\ autogenerate_empty_prefix (lit "{ no declaration }") 3 DEFAULT_ALPHABET
     = Return (lit "aaa").
Proof.
  split; [reflexivity|].
  apply (autogenerate_empty_prefix_no_colon _ 3 "a"%char
           (lit "bcdefghijklmnopqrstuvwxyz")).
  reflexivity.
Defined.

(** ** More on [replace_empty_prefix] *)

Lemma filter_seq_shift (P : nat -> Prop) `{!forall i, Decision (P i)} a n :
  length (filter P (seq (S a) n))
  = length (filter (fun i => P (S i)) (seq a n)).
Proof.
  revert a. induction n as [|n IH]; intros a; [done|]. simpl.
  rewrite !filter_cons. destruct (decide (P (S a))); simpl; by rewrite IH.
Qed.

Lemma occurrences_cons r c s :
  occurrences r (c :: s)
  = (if matches_at r (c :: s) 0 then 1 else 0) + occurrences r s.
Proof.
  unfold occurrences.
  change (seq 0 (S (length (c :: s)))) with (0 :: seq 1 (S (length s))).
  rewrite filter_cons.
  pose proof (filter_seq_shift (fun i => matches_at r (c :: s) i = true)
                0 (S (length s))) as Hshift.
  change (fun i => matches_at r (c :: s) (S i) = true)
    with (fun i => matches_at r s i = true) in Hshift.
  destruct (decide (matches_at r (c :: s) 0 = true)) as [->|Hn].
  - cbn [length]. by rewrite Hshift.
  - rewrite Hshift. by destruct (matches_at r (c :: s) 0).
Qed.

(** The scan reports no more matches than the pattern has occurrences. *)
Lemma scan_hits_le r skip s :
  length (hits (scan r skip s)) <= occurrences r s.
Proof.
  revert skip. induction s as [|c s IH]; intros skip; [simpl; lia|].
  rewrite occurrences_cons. cbn [scan]. destruct skip as [|k].
  - unfold matches_at. rewrite drop_0.
    destruct (re_match r (c :: s)) as [[g rest]|].
    + specialize (IH (length (c :: s) - length rest - 1)).
      apply le_n_S. exact IH.
    + exact (IH 0).
  - specialize (IH k). lia.
Qed.

(** X12. [replace_empty_prefix] raises nothing but its own exception,
    and only on a text with more than one occurrence of the declaration
    pattern: with one occurrence or none it returns. *)
Theorem replace_empty_prefix_raises (text empty_prefix : str) (e : exn) :
  replace_empty_prefix text empty_prefix = Raise e ->
  e = multiple_tokens /\ 1 < occurrences empty_context_pattern text.
Proof.
  unfold replace_empty_prefix, subn.
  pose proof (scan_hits_le empty_context_pattern 0 text) as Hle.
  destruct (length (hits (scan empty_context_pattern 0 text)))
    as [|[|count]]; [done | done |].
  intros [= <-]. split; [done | lia].
Qed.

Lemma replace_empty_prefix_raises_witness :
  replace_empty_prefix (py "{'': 'http://a/', '':'file:///b/'}") (lit "aaa")
  = Raise multiple_tokens
  /\ 1 < occurrences empty_context_pattern
           (py "{'': 'http://a/', '':'file:///b/'}").
Proof.
  split; [vm_compute; reflexivity|].
  apply (replace_empty_prefix_raises _ (lit "aaa") multiple_tokens).
  vm_compute. reflexivity.
Defined.

(** A substitution that writes every match back gives the text back. *)
Lemma subn_same r repl s :
  positive r ->
  (forall b g rest, re_match r b = Some (g, rest) -> repl g ++ rest = b) ->
  (subn r repl s).1 = s.
Proof.
  intros Hpos Hrepl. unfold subn. cbn [fst].
  assert (forall skip, skip <= length s ->
            concat (map (fun pc => match pc with
                                   | Hit g => repl g
                                   | Gap c => [c]
                                   end) (scan r skip s)) = drop skip s) as H.
  { induction s as [|c s IH]; intros skip Hs; simpl in Hs.
    - by assert (skip = 0) as -> by lia.
    - cbn [scan]. destruct skip as [|k]; [|apply IH; lia].
      destruct (re_match r (c :: s)) as [[g rest]|] eqn:E.
      + pose proof (Hrepl _ _ _ E) as Hb.
        apply re_match_Some in E as (w & Hw & M).
        assert (repl g = w) as Hg.
        { rewrite Hw in Hb. by apply app_inv_tail in Hb. }
        destruct w as [|x w]; [by destruct (Hpos _ _ M)|].
        injection Hw as <- ->. cbn [map concat]. rewrite Hg.
        replace (length (c :: w ++ rest) - length rest - 1) with (length w)
          by (cbn [length]; rewrite length_app; lia).
        rewrite IH by (rewrite length_app; lia).
        by rewrite drop_app_length.
      + cbn [map concat]. by rewrite IH by lia. }
  by rewrite (H 0 ltac:(lia)).
Qed.

Lemma empty_context_groups b g rest :
  re_match empty_context_pattern b = Some (g, rest) ->
  (dq :: [] ++ py "':" ++ group 1 g) ++ rest = b.
Proof.
  intros E. apply re_match_Some in E as (w & -> & M). f_equal.
  unfold empty_context_pattern in M. cbn [Matches] in M.
  destruct M as (w1 & w2 & g1 & g2 & -> & -> & [-> ->] & g' & -> & _).
  reflexivity.
Qed.

Lemma empty_token_groups b g rest :
  re_match empty_token_pattern b = Some (g, rest) ->
  (dq :: [] ++ lit ":" ++ group 1 g ++ [dq]) ++ rest = b.
Proof.
  intros E. apply re_match_Some in E as (w & -> & M). f_equal.
  unfold empty_token_pattern in M. cbn [Matches] in M.
  destruct M as (w1 & w2 & g1 & g2 & -> & -> & [-> ->] & M).
  destruct M as (w3 & w4 & g3 & g4 & -> & -> & (g' & -> & _ & _ & ->) & -> & ->).
  reflexivity.
Qed.

(** X13. With the empty text as prefix, whatever [replace_empty_prefix]
    returns is the text it was given. *)
Theorem replace_empty_prefix_empty (text result_text : str) :
  replace_empty_prefix text [] = Return result_text -> result_text = text.
Proof.
  unfold replace_empty_prefix.
  pose proof (subn_same empty_context_pattern
                (fun m => dq :: [] ++ py "':" ++ group 1 m) text
                empty_context_positive empty_context_groups) as H1.
  destruct (subn empty_context_pattern _ text) as [text1 count1].
  simpl in H1. subst text1.
  destruct (count1 =? 0); [by intros [= <-]|].
  destruct (1 <? count1); [done|].
  pose proof (subn_same empty_token_pattern
                (fun m => dq :: [] ++ lit ":" ++ group 1 m ++ [dq]) text
                empty_token_positive empty_token_groups) as H2.
  destruct (subn empty_token_pattern _ text) as [text2 count2].
  simpl in H2. subst text2. by intros [= <-].
Qed.

Lemma replace_empty_prefix_empty_witness :
  replace_empty_prefix (py "{'': 'http://a/', 'k': ':v'}") []
  = Return (py "{'': 'http://a/', 'k': ':v'}").
Proof.
  assert (exists t, replace_empty_prefix (py "{'': 'http://a/', 'k': ':v'}") []
                    = Return t) as [t Ht] by (eexists; vm_compute; reflexivity).
  rewrite Ht. f_equal. by apply replace_empty_prefix_empty.
Defined.

(** ** More on [embed_line_numbers] and [precondition] *)

Lemma join_split_char c s : join c (split_char c s) = s.
Proof.
  induction s as [|x s IH]; [done|]. simpl.
  pose proof (proj1 (split_char_lines c s)) as Hne.
  destruct (Ascii.eqb_spec x c) as [->|_].
  - destruct (split_char c s) as [|l ls]; [done|].
    change (join c ([] :: l :: ls)) with ([] ++ c :: join c (l :: ls)).
    by rewrite IH.
  - destruct (split_char c s) as [|l ls]; [done|].
    destruct ls as [|l2 ls]; simpl in *; by rewrite <- IH.
Qed.

Lemma imap_unchanged (f : nat -> str -> str) (lines : list str) :
  (forall i line, lines !! i = Some line -> f i line = line) ->
  imap f lines = lines.
Proof.
  intros H. apply list_eq. intros i. rewrite list_lookup_imap.
  destruct (lines !! i) as [line|] eqn:E; [|done]. simpl. by rewrite (H i line).
Qed.

(** X14. Embedding the line numbers neither adds nor removes a line. *)
Theorem embed_line_numbers_line_count (text : str) :
  length (split_char nl (embed_line_numbers text))
  = length (split_char nl text).
Proof.
  unfold embed_line_numbers.
  destruct (split_char_lines nl text) as [Hne Hno].
  rewrite split_char_join.
  - apply length_imap.
  - intros E. apply (f_equal length) in E. rewrite length_imap in E.
    by destruct (split_char nl text).
  - apply Forall_forall. intros l Hin.
    apply list_elem_of_lookup in Hin as [k Hk].
    rewrite list_lookup_imap in Hk.
    destruct (split_char nl text !! k) as [l0|] eqn:E0; [|done].
    injection Hk as <-. apply embed_line_no_nl.
    rewrite Forall_forall in Hno. apply Hno. by eapply list_elem_of_lookup_2.
Qed.

(** X15. A text none of whose lines starts with a type declaration is
    returned as it is. *)
Theorem embed_line_numbers_unchanged (text : str) :
  forallb (fun line => negb (matches_at type_matcher line 0))
          (split_char nl text) = true ->
  embed_line_numbers text = text.
Proof.
  intros H. unfold embed_line_numbers. rewrite imap_unchanged.
  - apply join_split_char.
  - intros i line Hl. apply embed_line_unmatched.
    rewrite forallb_forall in H.
    specialize (H line ltac:(apply list_elem_of_In;
                             by eapply list_elem_of_lookup_2)).
    unfold matches_at in H. rewrite drop_0 in H.
    by destruct (re_match type_matcher line).
Qed.

Lemma embed_line_numbers_unchanged_witness :
  forallb (fun line => negb (matches_at type_matcher line 0))
          (split_char nl (join nl [py "{"; py "  '@id': 'kb:a',"; py "}"]))
  = true
  /\ embed_line_numbers (join nl [py "{"; py "  '@id': 'kb:a',"; py "}"])
     = join nl [py "{"; py "  '@id': 'kb:a',"; py "}"].
Proof.
  split; [reflexivity|]. apply embed_line_numbers_unchanged. reflexivity.
Defined.

(** X16. What is written is read back: on a line that starts with a
    type declaration whose value holds no separator, the value in the
    result decodes to the value of the text and the number of the line,
    counted from 1. *)
Theorem embed_line_numbers_decodes
    (text : str) (i : nat) (sp sp' v rest : str) :
  split_char nl text !! i
  = Some ((sp ++ py "'@type':" ++ sp' ++ [dq]) ++ v ++ py "'," ++ rest) ->
  forallb is_blank sp = true -> forallb is_blank sp' = true ->
  v <> [] -> forallb type_char v = true ->
  contains LINE v = false ->
  exists value,
    split_char nl (embed_line_numbers text) !! i
    = Some ((sp ++ py "'@type':" ++ sp' ++ [dq]) ++ value ++ py "',")
    /\ extract_line_number value = Return (v, Some (Z.of_nat i + 1)%Z).
Proof.
  intros Hl Hsp Hsp' Hv Hc Hno.
  exists (encode v (Z.of_nat i + 1)). split.
  - rewrite (embed_line_numbers_line _ _ _ Hl).
    by rewrite embed_line_type_declaration.
  - unfold encode. apply contains_false in Hno.
    assert (str_int (Z.of_nat i + 1) = str_N (Z.to_N (Z.of_nat i + 1))) as ->.
    { destruct (Z.of_nat i + 1)%Z eqn:E; [done | done | lia]. }
    destruct (str_N_spec (Z.to_N (Z.of_nat i + 1))) as (Hd & _ & _).
    rewrite extract_line_number_digits by done.
    rewrite int_str_N. simpl. f_equal. f_equal. f_equal. lia.
Qed.

Lemma embed_line_numbers_decodes_witness :
  exists value,
    split_char nl
      (embed_line_numbers
         (join nl [py "{"; py "  '@type': 'Person', 'name': 'Ann'"; py "}"]))
    !! 1 = Some ((lit "  " ++ py "'@type':" ++ lit " " ++ [dq])
                 ++ value ++ py "',")
    /\ extract_line_number value = Return (lit "Person", Some 2%Z).
Proof.
  apply (embed_line_numbers_decodes
           (join nl [py "{"; py "  '@type': 'Person', 'name': 'Ann'"; py "}"])
           1 (lit "  ") (lit " ") (lit "Person") (py " 'name': 'Ann'"));
    [reflexivity | reflexivity | reflexivity | discriminate | reflexivity
     | reflexivity].
Defined.

Lemma occurrences_none r text :
  (forall i, matches_at r text i = false) -> occurrences r text = 0.
Proof.
  intros H. unfold occurrences.
  induction (seq 0 (S (length text))) as [|k l IH]; [done|].
  rewrite filter_cons. destruct (decide (matches_at r text k = true)) as [E|_].
  - by rewrite H in E.
  - exact IH.
Qed.

Lemma split_char_In c s :
  Forall (fun line => forall x, In x line -> In x s) (split_char c s).
Proof.
  induction s as [|y s IH]; simpl.
  - constructor; [by intros x []|constructor].
  - assert (Forall (fun line => forall x, In x line -> In x (y :: s))
              (split_char c s)) as IH'.
    { eapply Forall_impl; [exact IH|]. intros l Hl x Hx. right. by apply Hl. }
    destruct (Ascii.eqb y c).
    + constructor; [by intros x []|done].
    + destruct (split_char c s) as [|l ls].
      { constructor; [|constructor]. intros x [->|[]]. by left. }
      inversion IH' as [|? ? Hl Hls]; subst. constructor; [|done].
      intros x [->|Hx]; [by left | by apply Hl].
Qed.

Lemma no_colon_In text : contains (lit ":") text = false -> ~ In ":"%char text.
Proof.
  intros H Hin. apply contains_false in H. apply H.
  apply in_split in Hin as (a & b & ->). by exists a, b.
Qed.

Lemma no_colon_no_context text :
  ~ In ":"%char text -> forall i, matches_at empty_context_pattern text i = false.
Proof.
  intros Hno i. unfold matches_at.
  destruct (re_match empty_context_pattern (drop i text)) as [[g rest]|] eqn:E;
    [|done].
  apply re_match_Some in E as (w & Hw & M).
  apply empty_context_shape in M as (ws & scheme & -> & _).
  destruct Hno. rewrite <- (take_drop i text), Hw.
  apply in_app_iff. right. simpl. auto.
Qed.

Lemma no_colon_no_type line :
  ~ In ":"%char line -> re_match type_matcher line = None.
Proof.
  intros Hno.
  destruct (re_match type_matcher line) as [[g rest]|] eqn:E; [|done].
  apply re_match_Some in E as (w & -> & M).
  apply type_matcher_shape in M as (sp & sp' & v & -> & _).
  destruct Hno. rewrite !in_app_iff. left. left. right. left.
  vm_compute. auto 10.
Qed.

(** X17. A text without colon goes through [precondition] unchanged,
    whether a prefix is given or not. *)
Theorem precondition_no_colon (text : str) (prefix : option str) :
  contains (lit ":") text = false ->
  precondition text prefix = Return text.
Proof.
  intros H. pose proof (no_colon_In _ H) as Hno. unfold precondition.
  assert (forall p, replace_empty_prefix text p = Return text) as Hr.
  { intros p. unfold replace_empty_prefix.
    by rewrite subn_absent by (by apply no_colon_no_context). }
  assert (embed_line_numbers text = text) as He.
  { unfold embed_line_numbers. rewrite imap_unchanged; [apply join_split_char|].
    intros i line Hl. apply embed_line_unmatched, no_colon_no_type.
    intros Hin. apply Hno.
    pose proof (split_char_In nl text) as Hall. rewrite Forall_forall in Hall.
    apply (Hall line); [by eapply list_elem_of_lookup_2 | done]. }
  destruct prefix as [p|].
  - cbn [bind]. rewrite Hr. cbn [bind]. by rewrite He.
  - change DEFAULT_ALPHABET
      with ("a"%char :: lit "bcdefghijklmnopqrstuvwxyz").
    rewrite autogenerate_no_colon by done.
    cbn [bind]. rewrite Hr. cbn [bind]. by rewrite He.
Qed.

Lemma precondition_no_colon_witness :
  contains (lit ":") (lit "[1, 2, 3]") = false
  /\ precondition (lit "[1, 2, 3]") None = Return (lit "[1, 2, 3]").
Proof.
  split; [reflexivity|]. apply precondition_no_colon. reflexivity.
Defined.

(** ** More on [postcondition] *)

Lemma cleaned_reference {N : Normalization} context s iri stripped n :
  extract_line_number iri = Return (stripped, Some n) -> n <> 0%Z ->
  cleaned context s (URIRef iri) = Return (URIRef stripped, Some n).
Proof.
  intros E Hn. unfold cleaned, clean_object.
  cbn [strip_datatype bind expand_prefix strip_reference]. rewrite E.
  cbn [bind truthy]. destruct (Z.eqb_spec n 0) as [|_]; [done|].
  cbn [bind]. by rewrite lookup_insert_eq.
Qed.

(** X18. A reference whose text decodes to a line number other than 0
    is replaced by the stripped reference, and the number is recorded
    for the subject, to stay unless a later triple writes that entry. *)
Theorem postcondition_reference {N : Normalization}
    (context : gmap str str) (before after : list triple)
    (s p : term) (iri stripped : str) (number : Z)
    (g : gset triple) (t : gmap term Z) :
  extract_line_number iri = Return (stripped, Some number) ->
  number <> 0%Z ->
  postcondition (before ++ (s, p, URIRef iri) :: after) context
  = Return (g, t) ->
  elem_of (s, p, URIRef stripped) g
  /\ (existsb (writes context s) after = false -> t !! s = Some number).
Proof.
  intros E Hn H.
  pose proof (cleaned_reference context s _ _ _ E Hn) as Hc.
  destruct (postcondition_middle _ _ _ _ _ _ _ _ _ _ Hc H) as [Hg Ht].
  split; [done|]. intros Hw. by apply Ht.
Qed.

Lemma postcondition_reference_witness :
  exists g t,
    @postcondition normalize_integer
      [(node_s, node_p, URIRef (lit "Person_LINE_5"));
       (node_s, node_q, BNode (lit "b0"))] empty = Return (g, t)
    /\ elem_of (node_s, node_p, URIRef (lit "Person")) g
    /\ t !! node_s = Some 5%Z.
Proof.
  destruct (@postcondition_returns normalize_integer
      [(node_s, node_p, URIRef (lit "Person_LINE_5"));
       (node_s, node_q, BNode (lit "b0"))] empty) as (g & t & E).
  { intros s p o [[= <- <- <-]|[[= <- <- <-]|[]]];
      eexists _, _; vm_compute; reflexivity. }
  exists g, t. split; [exact E|].
  destruct (@postcondition_reference normalize_integer empty [] [(node_s, node_q, BNode (lit "b0"))]
              node_s node_p (lit "Person_LINE_5") (lit "Person") 5 g t)
    as [Hg Ht]; [reflexivity | lia | exact E |].
  split; [exact Hg | apply Ht; reflexivity].
Defined.

(** X19. The round trip of a type value: a reference whose text is the
    encoding of a value without separator and of a line number from 1 on
    comes out as the reference to the value, with the line number in the
    table. *)
Theorem postcondition_decodes {N : Normalization}
    (context : gmap str str) (before after : list triple)
    (s p : term) (v : str) (line_number : Z)
    (g : gset triple) (t : gmap term Z) :
  contains LINE v = false -> (0 < line_number)%Z ->
  postcondition (before ++ (s, p, URIRef (encode v line_number)) :: after)
                context = Return (g, t) ->
  elem_of (s, p, URIRef v) g
  /\ (existsb (writes context s) after = false -> t !! s = Some line_number).
Proof.
  intros Hv Hn H. apply contains_false in Hv.
  assert (extract_line_number (encode v line_number)
          = Return (v, Some line_number)) as E.
  { unfold encode.
    assert (str_int line_number = str_N (Z.to_N line_number)) as ->
      by (destruct line_number; [done | done | lia]).
    destruct (str_N_spec (Z.to_N line_number)) as (Hd & _ & _).
    rewrite extract_line_number_digits by done.
    rewrite int_str_N. simpl. by rewrite Z2N.id by lia. }
  pose proof (cleaned_reference context s _ _ _ E ltac:(lia)) as Hc.
  destruct (postcondition_middle _ _ _ _ _ _ _ _ _ _ Hc H) as [Hg Ht].
  split; [done|]. intros Hw. by apply Ht.
Qed.

Lemma postcondition_decodes_witness :
  exists g t,
    @postcondition normalize_integer [(node_s, node_p, URIRef (encode (lit "Person") 5))] empty
    = Return (g, t)
    /\ elem_of (node_s, node_p, URIRef (lit "Person")) g
    /\ t !! node_s = Some 5%Z.
Proof.
  destruct (@postcondition_returns normalize_integer
      [(node_s, node_p, URIRef (encode (lit "Person") 5))] empty)
    as (g & t & E).
  { intros s p o [[= <- <- <-]|[]]. eexists _, _. vm_compute. reflexivity. }
  exists g, t. split; [exact E|].
  destruct (@postcondition_decodes normalize_integer empty [] [] node_s node_p (lit "Person") 5 g t)
    as [Hg Ht]; [reflexivity | lia | exact E |].
  split; [exact Hg | apply Ht; reflexivity].
Defined.

Lemma cleaned_literal_kept {N : Normalization}
    context s lexical language datatype :
  has_datatype (Some datatype) = true -> ~ occurs LINE datatype ->
  cleaned context s (Literal lexical language (Some datatype))
  = Return (Literal lexical language (Some datatype), None).
Proof.
  intros Hd Hno. unfold cleaned, clean_object. cbn [strip_datatype].
  rewrite Hd, extract_line_number_absent by done.
  cbn [bind truthy expand_prefix]. rewrite Hd. by cbn [strip_reference bind].
Qed.

(** X20. A literal with a datatype that holds no separator is kept as it
    is, whatever its text, and records nothing: its prefix is not
    expanded. *)
Theorem postcondition_typed_literal {N : Normalization}
    (context : gmap str str) (graph : list triple)
    (s p : term) (lexical : str) (language : option str) (datatype : str)
    (g : gset triple) (t : gmap term Z) :
  datatype <> [] -> contains LINE datatype = false ->
  In (s, p, Literal lexical language (Some datatype)) graph ->
  postcondition graph context = Return (g, t) ->
  elem_of (s, p, Literal lexical language (Some datatype)) g
  /\ writes context s (s, p, Literal lexical language (Some datatype)) = false.
Proof.
  intros Hne Hno Hin H. apply contains_false in Hno.
  assert (has_datatype (Some datatype) = true) as Hd by (by destruct datatype).
  pose proof (cleaned_literal_kept context s lexical language _ Hd Hno) as Hc.
  destruct (postcondition_member _ _ _ _ _ _ _ Hin H) as (o' & n & E & Hg).
  rewrite Hc in E. injection E as <- <-. split; [done|].
  unfold writes. rewrite Hc. apply andb_false_r.
Qed.

Lemma postcondition_typed_literal_witness :
  exists g t,
    @postcondition normalize_integer
      [(node_s, node_p,
        Literal (lit "foo:bar") None (Some (lit "http://example.org/T")))]
      {[ lit "foo" := lit "http://example.org/" ]} = Return (g, t)
    /\ elem_of (node_s, node_p,
                Literal (lit "foo:bar") None (Some (lit "http://example.org/T")))
               g.
Proof.
  destruct (@postcondition_returns normalize_integer
      [(node_s, node_p,
        Literal (lit "foo:bar") None (Some (lit "http://example.org/T")))]
      {[ lit "foo" := lit "http://example.org/" ]}) as (g & t & E).
  { intros s p o [[= <- <- <-]|[]]. eexists _, _. vm_compute. reflexivity. }
  exists g, t. split; [exact E|].
  eapply (@postcondition_typed_literal normalize_integer _ _ node_s node_p (lit "foo:bar") None
            (lit "http://example.org/T") g t);
    [discriminate | reflexivity | | exact E].
  by left.
Defined.

Lemma split_once_no_colon value :
  ~ In ":"%char value -> split_once ":"%char value = [value].
Proof.
  induction value as [|c value IH]; intros H; [done|]. cbn [split_once].
  destruct (Ascii.eqb_spec c ":"%char) as [->|_]; [destruct H; by left|].
  rewrite IH; [done|]. intros Hin. apply H. by right.
Qed.

Lemma cleaned_literal_plain {N : Normalization}
    context s value language datatype :
  has_datatype datatype = false ->
  (contains (lit ":") value = false
   \/ exists left right,
        value = left ++ ":"%char :: right
        /\ contains (lit ":") left = false /\ context !! left = None) ->
  cleaned context s (Literal value language datatype)
  = Return (Literal value language datatype, None).
Proof.
  intros Hd Hv. unfold cleaned, clean_object.
  assert (strip_datatype s (Literal value language datatype) empty
          = Return (Literal value language datatype, empty)) as ->.
  { destruct datatype as [[|c d]|]; done. }
  cbn [bind expand_prefix]. rewrite Hd.
  destruct Hv as [Hno|(left & right & -> & Hl & Hc)].
  - rewrite split_once_no_colon by (by apply no_colon_In). done.
  - rewrite split_once_first_colon, Hc by done. done.
Qed.

(** X21. A literal without datatype is kept as it is when its text has
    no colon, or when what stands before its first colon is no key of
    the context. *)
Theorem postcondition_plain_literal {N : Normalization}
    (context : gmap str str) (graph : list triple)
    (s p : term) (value : str) (language datatype : option str)
    (g : gset triple) (t : gmap term Z) :
  has_datatype datatype = false ->
  (contains (lit ":") value = false
   \/ exists left right,
        value = left ++ ":"%char :: right
        /\ contains (lit ":") left = false /\ context !! left = None) ->
  In (s, p, Literal value language datatype) graph ->
  postcondition graph context = Return (g, t) ->
  elem_of (s, p, Literal value language datatype) g.
Proof.
  intros Hd Hv Hin H.
  pose proof (cleaned_literal_plain context s value language _ Hd Hv) as Hc.
  destruct (postcondition_member _ _ _ _ _ _ _ Hin H) as (o' & n & E & Hg).
  rewrite Hc in E. by injection E as <- <-.
Qed.

Lemma postcondition_plain_literal_witness :
  exists g t,
    @postcondition normalize_integer [(node_s, node_p, Literal (lit "baz:bar") None None)]
                  {[ lit "foo" := lit "http://example.org/" ]} = Return (g, t)
    /\ elem_of (node_s, node_p, Literal (lit "baz:bar") None None) g.
Proof.
  destruct (@postcondition_returns normalize_integer
      [(node_s, node_p, Literal (lit "baz:bar") None None)]
      {[ lit "foo" := lit "http://example.org/" ]}) as (g & t & E).
  { intros s p o [[= <- <- <-]|[]]. eexists _, _. vm_compute. reflexivity. }
  exists g, t. split; [exact E|].
  eapply (@postcondition_plain_literal normalize_integer _ _ node_s node_p (lit "baz:bar") None
            None g t); [reflexivity | | | exact E]; [|by left].
  right. exists (lit "baz"), (lit "bar").
  split; [reflexivity|]. split; [reflexivity|]. vm_compute. reflexivity.
Defined.

Lemma truthy_Some number k : truthy number = Some k -> k <> 0%Z.
Proof.
  destruct number as [n|]; [|done]. simpl.
  destruct (Z.eqb_spec n 0); [done|]. by intros [= <-].
Qed.

Lemma strip_datatype_entry {N : Normalization}
    subject obj (t t' : gmap term Z) obj' node k :
  strip_datatype subject obj t = Return (obj', t') ->
  t' !! node = Some k -> t !! node = Some k \/ k <> 0%Z.
Proof.
  destruct obj as [iri|b|lexical language [datatype|]];
    try (intros [= <- <-]; by left).
  cbn [strip_datatype]. destruct (has_datatype (Some datatype));
    [|intros [= <- <-]; by left].
  destruct (extract_line_number datatype) as [[stripped number]|]; [|done].
  cbn [bind]. destruct (truthy number) as [n|] eqn:E;
    [|intros [= <- <-]; by left].
  intros [= <- <-] H. apply truthy_Some in E.
  destruct (decide (subject = node)) as [->|Hne].
  - rewrite lookup_insert_eq in H. injection H as <-. by right.
  - rewrite lookup_insert_ne in H by done. by left.
Qed.

Lemma strip_reference_entry subject obj (t t' : gmap term Z) obj' node k :
  strip_reference subject obj t = Return (obj', t') ->
  t' !! node = Some k -> t !! node = Some k \/ k <> 0%Z.
Proof.
  destruct obj as [iri|b|lexical language datatype];
    try (intros [= <- <-]; by left).
  cbn [strip_reference].
  destruct (extract_line_number iri) as [[stripped number]|]; [|done].
  cbn [bind]. destruct (truthy number) as [n|] eqn:E;
    [|intros [= <- <-]; by left].
  intros [= <- <-] H. apply truthy_Some in E.
  destruct (decide (subject = node)) as [->|Hne].
  - rewrite lookup_insert_eq in H. injection H as <-. by right.
  - rewrite lookup_insert_ne in H by done. by left.
Qed.

Lemma cleaned_nonzero {N : Normalization} context s o o' k :
  cleaned context s o = Return (o', Some k) -> k <> 0%Z.
Proof.
  unfold cleaned, clean_object.
  destruct (strip_datatype s o empty) as [[o1 t1]|] eqn:E1; [|done].
  cbn [bind].
  destruct (strip_reference s (expand_prefix context o1) t1)
    as [[o2 t2]|] eqn:E2; [|done].
  cbn [bind]. intros [= <- H].
  destruct (strip_reference_entry _ _ _ _ _ _ _ E2 H) as [H1|]; [|done].
  destruct (strip_datatype_entry _ _ _ _ _ _ _ E1 H1) as [H0|]; [|done].
  by rewrite lookup_empty in H0.
Qed.

(** Every entry of the table was there before the loop or comes from a
    triple of its node. *)
Lemma for_triples_entry {N : Normalization}
    context triples g0 (t0 : gmap term Z) g t node k :
  for_triples context triples g0 t0 = Return (g, t) ->
  t !! node = Some k ->
  t0 !! node = Some k
  \/ exists p o o', In (node, p, o) triples
       /\ cleaned context node o = Return (o', Some k).
Proof.
  revert g0 t0. induction triples as [|[[s p] o] triples IH]; intros g0 t0.
  - intros [= <- <-] H. by left.
  - cbn [for_triples]. rewrite clean_object_table.
    destruct (cleaned context s o) as [[o' n]|] eqn:E; [|done]. cbn [bind].
    intros H Hk. destruct (IH _ _ H Hk) as [H0|(p1 & o1 & o1' & Hin & Hc)].
    + destruct n as [n|]; [|by left]. cbn [record] in H0.
      destruct (decide (s = node)) as [->|Hne].
      * rewrite lookup_insert_eq in H0. injection H0 as ->.
        right. exists p, o, o'. split; [by left | done].
      * rewrite lookup_insert_ne in H0 by done. by left.
    + right. exists p1, o1, o1'. split; [by right | done].
Qed.

(** X22. The table never holds 0, and every entry of it is the line
    number decoded from the object of a triple of the graph whose
    subject is the key. *)
Theorem postcondition_table {N : Normalization}
    (graph : list triple) (context : gmap str str)
    (g : gset triple) (t : gmap term Z) (node : term) (k : Z) :
  postcondition graph context = Return (g, t) ->
  t !! node = Some k ->
  k <> 0%Z
  /\ exists p o o', In (node, p, o) graph
       /\ cleaned context node o = Return (o', Some k).
Proof.
  intros H Hk.
  destruct (for_triples_entry _ _ _ _ _ _ _ _ H Hk)
    as [H0|(p & o & o' & Hin & Hc)]; [by rewrite lookup_empty in H0|].
  split; [by apply cleaned_nonzero in Hc|]. by exists p, o, o'.
Qed.

Lemma postcondition_table_witness :
  exists g t,
    @postcondition normalize_integer [(node_s, node_p, URIRef (lit "Person_LINE_5"))] empty
    = Return (g, t)
    /\ t !! node_s = Some 5%Z
    /\ 5%Z <> 0%Z
    /\ exists p o o',
         In (node_s, p, o) [(node_s, node_p, URIRef (lit "Person_LINE_5"))]
         /\ @cleaned normalize_integer empty node_s o = Return (o', Some 5%Z).
Proof.
  destruct (@postcondition_returns normalize_integer
      [(node_s, node_p, URIRef (lit "Person_LINE_5"))] empty) as (g & t & E).
  { intros s p o [[= <- <- <-]|[]]. eexists _, _. vm_compute. reflexivity. }
  assert (t !! node_s = Some 5%Z) as Ht.
  { destruct (@postcondition_middle normalize_integer empty [] [] node_s node_p
                (URIRef (lit "Person_LINE_5")) (URIRef (lit "Person"))
                (Some 5%Z) g t) as [_ Hm]; [reflexivity | exact E |].
    by apply Hm. }
  exists g, t. split; [exact E|]. split; [exact Ht|].
  exact (@postcondition_table normalize_integer _ empty g t node_s 5 E Ht).
Defined.

Lemma extract_line_number_ValueError text e :
  extract_line_number text = Raise e -> e = ValueError.
Proof.
  intros H. unfold extract_line_number in H.
  destruct (rsplit_spec LINE text LINE_not_nil) as (Hne & _).
  destruct (Nat.eqb_spec (length (rsplit LINE text)) 1) as [|Hone]; [done|].
  destruct (rsplit LINE text) as [|p0 [|p1 ps]]; [done | done |].
  destruct (int p1) as [n|e'] eqn:E; [done|].
  injection H as <-. by apply int_raises in E.
Qed.

Lemma cleaned_ValueError {N : Normalization} context s o e :
  cleaned context s o = Raise e -> e = ValueError.
Proof.
  unfold cleaned, clean_object.
  destruct (strip_datatype s o empty) as [[o1 t1]|e1] eqn:E1.
  - cbn [bind].
    destruct (strip_reference s (expand_prefix context o1) t1)
      as [[o2 t2]|e2] eqn:E2; [done|].
    cbn [bind]. intros [= <-].
    destruct (expand_prefix context o1) as [iri| |]; try done.
    cbn [strip_reference] in E2.
    destruct (extract_line_number iri) as [[stripped number]|e3] eqn:E3.
    + cbn [bind] in E2. by destruct (truthy number).
    + injection E2 as <-. by apply extract_line_number_ValueError in E3.
  - cbn [bind]. intros [= <-].
    destruct o as [iri|b|lexical language [datatype|]]; try done.
    cbn [strip_datatype] in E1.
    destruct (has_datatype (Some datatype)); [|done].
    destruct (extract_line_number datatype) as [[stripped number]|e3] eqn:E3.
    + cbn [bind] in E1. by destruct (truthy number).
    + injection E1 as <-. by apply extract_line_number_ValueError in E3.
Qed.

Lemma for_triples_raises {N : Normalization}
    context triples g0 (t0 : gmap term Z) e :
  for_triples context triples g0 t0 = Raise e ->
  exists s p o, In (s, p, o) triples /\ cleaned context s o = Raise e.
Proof.
  revert g0 t0. induction triples as [|[[s p] o] triples IH]; intros g0 t0.
  - done.
  - cbn [for_triples]. rewrite clean_object_table.
    destruct (cleaned context s o) as [[o' n]|e'] eqn:E; cbn [bind].
    + intros H. destruct (IH _ _ H) as (s1 & p1 & o1 & Hin & Hc).
      exists s1, p1, o1. split; [by right | done].
    + intros [= <-]. exists s, p, o. split; [by left | done].
Qed.

(** X23. [postcondition] raises nothing but the [ValueError] of [int],
    and only on a graph with an object whose cleaning raises it. *)
Theorem postcondition_raises {N : Normalization}
    (graph : list triple) (context : gmap str str) (e : exn) :
  postcondition graph context = Raise e ->
  e = ValueError
  /\ exists s p o, In (s, p, o) graph
       /\ cleaned context s o = Raise ValueError.
Proof.
  intros H. apply for_triples_raises in H as (s & p & o & Hin & Hc).
  pose proof (cleaned_ValueError _ _ _ _ Hc) as ->.
  split; [done|]. by exists s, p, o.
Qed.

Lemma postcondition_raises_witness :
  @postcondition normalize_integer [(node_s, node_p, URIRef (lit "T_LINE_x"))] empty
  = Raise ValueError
  /\ exists s p o,
       In (s, p, o) [(node_s, node_p, URIRef (lit "T_LINE_x"))]
       /\ @cleaned normalize_integer empty s o = Raise ValueError.
Proof.
  split; [reflexivity|].
  apply (@postcondition_raises normalize_integer
           [(node_s, node_p, URIRef (lit "T_LINE_x"))] empty ValueError).
  reflexivity.
Defined.

Lemma cleaned_separator_free {N : Normalization} s o :
  separator_free o = true -> cleaned empty s o = Return (o, None).
Proof.
  intros H. unfold cleaned, clean_object.
  destruct o as [iri|b|lexical language [datatype|]]; cbn in H.
  - apply negb_true_iff, contains_false in H.
    cbn [strip_datatype bind expand_prefix strip_reference].
    by rewrite extract_line_number_absent.
  - done.
  - apply negb_true_iff, contains_false in H. cbn [strip_datatype].
    destruct (has_datatype (Some datatype)) eqn:Hd.
    + rewrite extract_line_number_absent by done.
      cbn [bind truthy expand_prefix]. by rewrite Hd.
    + cbn [bind expand_prefix]. rewrite Hd.
      by destruct (split_once ":"%char lexical) as [|p0 [|p1 ps]].
  - cbn [strip_datatype bind expand_prefix has_datatype].
    by destruct (split_once ":"%char lexical) as [|p0 [|p1 ps]].
Qed.

Lemma for_triples_separator_free {N : Normalization}
    triples g0 (t0 : gmap term Z) :
  (forall s p o, In (s, p, o) triples -> separator_free o = true) ->
  for_triples empty triples g0 t0
  = Return (union g0 (list_to_set triples), t0).
Proof.
  revert g0. induction triples as [|[[s p] o] triples IH]; intros g0 H.
  - cbn [for_triples list_to_set foldr]. by rewrite (right_id_L empty union).
  - cbn [for_triples]. rewrite clean_object_table.
    rewrite cleaned_separator_free by (apply (H s p o); by left).
    cbn [bind record]. rewrite IH by (intros ? ? ? ?; eapply H; by right).
    cbn [list_to_set foldr]. by rewrite (assoc_L union).
Qed.

(** X24. With an empty context, a graph none of whose references and
    datatypes holds a separator comes back as it is, with an empty
    table. *)
Theorem postcondition_separator_free {N : Normalization} (graph : list triple) :
  (forall s p o, In (s, p, o) graph -> separator_free o = true) ->
  postcondition graph empty = Return (list_to_set graph, empty).
Proof.
  intros H. unfold postcondition. rewrite for_triples_separator_free by done.
  by rewrite (left_id_L empty union).
Qed.

Lemma postcondition_separator_free_witness :
  @postcondition normalize_integer
    [(node_s, node_p, URIRef (lit "Person"));
     (node_s, node_q, Literal (lit "a:b") None None)] empty
  = Return
      (list_to_set
         [(node_s, node_p, URIRef (lit "Person"));
          (node_s, node_q, Literal (lit "a:b") None None)], empty).
Proof.
  apply (@postcondition_separator_free normalize_integer
           [(node_s, node_p, URIRef (lit "Person"));
            (node_s, node_q, Literal (lit "a:b") None None)]).
  intros s p o [[= <- <- <-]|[[= <- <- <-]|[]]]; reflexivity.
Defined.
